(** * MPC.cpp: the NLP transcription of the model-predictive controller

    A shallow embedding of [FG_eval::operator()] and [MPC::Solve] from
    [src/MPC.cpp], and the properties of the cost function, the constraint
    rows, the bound arrays and the solve orchestration.

    Numbers: [double] and [AD<double>] are idealised as the real numbers [R];
    rounding, infinities and NaN are outside the model.  Vectors
    ([CPPAD_TESTVECTOR], [Eigen::VectorXd], [std::vector]) are lists; an index
    out of range is an error of the model ([None]), standing for the
    assertion failure or undefined behaviour of the C++ containers. *)

From Stdlib Require Import Reals Lra Lia String Ascii.
From stdpp Require Import base tactics option list.

(** ** Vectors *)

Abbreviation Dvector := (list R).
Abbreviation ADvector := (list R).
Abbreviation VectorXd := (list R).

(** [Dvector v(n)]: CppAD's vector value-initialises its [n] elements. *)
Definition Dvector_new (n : nat) : Dvector := replicate n 0%R.

(** [v[i] = x] *)
Definition store (v : list R) (i : nat) (x : R) : option (list R) :=
  if decide (i < length v) then Some (<[i := x]> v) else None.

(** ** Loops

    [for (int t = lo; t < hi; t++) body] over a loop state [St], where the body
    may fail.  [for_range lo n] runs the [n] iterations [lo, lo+1, ...]. *)

Fixpoint for_range {St : Type} (lo n : nat) (body : nat -> St -> option St) (s : St)
  : option St :=
  match n with
  | O => Some s
  | S n' => s' ← body lo s; for_range (S lo) n' body s'
  end.

Definition for_loop {St : Type} (lo hi : nat) (body : nat -> St -> option St) (s : St)
  : option St :=
  for_range lo (hi - lo) body s.

(** ** The solver interface (CppAD::ipopt)

    [solve_result<Dvector>::status_type] and the fields of [solve_result] that
    [MPC::Solve] reads. *)

Inductive status_type :=
  | not_defined
  | success
  | maxiter_exceeded
  | stop_at_tiny_step
  | stop_at_acceptable_point
  | local_infeasibility
  | user_requested_stop
  | feasible_point_found
  | diverging_iterates
  | restoration_failure
  | error_in_step_computation
  | invalid_number_detected
  | too_few_degrees_of_freedom
  | internal_error
  | unknown.

#[global] Instance status_type_eq_dec : EqDecision status_type.
Proof. solve_decision. Defined.

Record solve_result := {
  status : status_type;
  x : Dvector;
  obj_value : R
}.

(** The arguments of [CppAD::ipopt::solve], in the order of the call. *)
Record ipopt_problem := {
  ip_options : string;
  ip_xi : Dvector;
  ip_xl : Dvector;
  ip_xu : Dvector;
  ip_gl : Dvector;
  ip_gu : Dvector;
  ip_fg_eval : ADvector -> ADvector -> option ADvector
}.

(** The solver is a black box: any function from the problem to a result. *)
Definition ipopt_solver := ipopt_problem -> solve_result.

(** ** The process: standard output and the log of solver calls *)

Inductive cout_item :=
  | cout_str (s : string)
  | cout_double (d : R)
  | cout_endl.

Record world := {
  cout : list cout_item;
  solves : nat
}.

Definition M (A : Type) : Type := world -> option (A * world).

#[global] Instance M_ret : MRet M := fun A a w => Some (a, w).

#[global] Instance M_bind : MBind M := fun A B k m w =>
  match m w with
  | Some (a, w') => k a w'
  | None => None
  end.

(** A pure, fallible computation inside the process. *)
Definition lift {A} (o : option A) : M A :=
  fun w => match o with Some a => Some (a, w) | None => None end.

(** [std::cout << ...] *)
Definition put_cout (items : list cout_item) : M unit :=
  fun w => Some (tt, {| cout := cout w ++ items; solves := solves w |}).

(** [CppAD::ipopt::solve(...)].  The model covers the runs in which the
    solver answers; what the solver does with the evaluator during the solve
    is not modelled. *)
Definition call_solver (ipopt : ipopt_solver) (p : ipopt_problem) : M solve_result :=
  fun w => Some (ipopt p, {| cout := cout w; solves := S (solves w) |}).

Definition nl : string := String "010"%char EmptyString.

(** ** A concrete process and two concrete solvers

    A process that has written nothing, and two solvers that stop at the
    initial point with objective value 0: one reports convergence, the other
    reports that the iteration limit was exceeded. *)

Definition w0 : world := {| cout := []; solves := 0 |}.

Definition ipopt_converged : ipopt_solver :=
  fun p => {| status := success; x := ip_xi p; obj_value := 0 |}.

Definition ipopt_maxiter : ipopt_solver :=
  fun p => {| status := maxiter_exceeded; x := ip_xi p; obj_value := 0 |}.

(** The class [FG_eval]: the fitted polynomial coefficients. *)
Record FG_eval := mkFG_eval { coeffs : VectorXd }.

Section Model.

(** Horizon parameters.  They are declared outside [MPC.cpp]; the model takes
    them as parameters.  [N] is a natural number: for [2 <= N] the loop bounds
    [N - 1] and [N - 2] are the same whether the C++ constant is signed or
    unsigned.  The quotient by [Lf] is the total division of the reals; at
    [Lf = 0] the quotient of the code is not a number, so a statement about
    the values of the psi and epsi rows is meant for [Lf <> 0]. *)
Variable N : nat.
Variables dt Lf ref_v : R.

(** Modelled from the spec: the start offsets [x_start] .. [a_start] of
    [MPC.h], which is not part of the sources.  The spec lays the decision
    vector out contiguously per field across all [N] timesteps, the six state
    channels x, y, psi, v, cte, epsi followed by delta and a across [N - 1]
    actuation steps. *)
Definition x_start : nat := 0.
Definition y_start : nat := x_start + N.
Definition psi_start : nat := y_start + N.
Definition v_start : nat := psi_start + N.
Definition cte_start : nat := v_start + N.
Definition epsi_start : nat := cte_start + N.
Definition delta_start : nat := epsi_start + N.
Definition a_start : nat := delta_start + N - 1.

Definition n_vars : nat := N * 6 + (N - 1) * 2.
Definition n_constraints : nat := N * 6.

(** ** [FG_eval] *)

Local Open Scope R_scope.

(** Lines 28-32: [cost += 1000 * pow(cte_t, 2); cost += 1000 * pow(epsi_t, 2)] *)
Definition cost_reference (vars : ADvector) (t : nat) (cost : R) : option R :=
  cte ← vars !! (cte_start + t)%nat;
  let cost := cost + 1000 * cte ^ 2 in
  epsi ← vars !! (epsi_start + t)%nat;
  Some (cost + 1000 * epsi ^ 2).

(** Lines 34-37 *)
Definition cost_speed (vars : ADvector) (t : nat) (cost : R) : option R :=
  v ← vars !! (v_start + t)%nat;
  Some (cost + 10 * (v - ref_v) ^ 2).

(** Lines 39-42 *)
Definition cost_actuators (vars : ADvector) (t : nat) (cost : R) : option R :=
  delta ← vars !! (delta_start + t)%nat;
  let cost := cost + 3 * delta ^ 2 in
  a ← vars !! (a_start + t)%nat;
  Some (cost + 3 * a ^ 2).

(** Lines 44-48 *)
Definition cost_actuator_speed (vars : ADvector) (t : nat) (cost : R) : option R :=
  delta1 ← vars !! (delta_start + t + 1)%nat;
  delta0 ← vars !! (delta_start + t)%nat;
  let cost := cost + 1000 * (delta1 - delta0) ^ 2 in
  a1 ← vars !! (a_start + t + 1)%nat;
  a0 ← vars !! (a_start + t)%nat;
  Some (cost + 1 * (a1 - a0) ^ 2).

(** Lines 25-48: the four cost loops, from [cost = 0.0]. *)
Definition FG_eval_cost (vars : ADvector) : option R :=
  let cost := 0 in
  cost ← for_loop 0 N (cost_reference vars) cost;
  cost ← for_loop 1 N (cost_speed vars) cost;
  cost ← for_loop 0 (N - 1) (cost_actuators vars) cost;
  for_loop 0 (N - 2) (cost_actuator_speed vars) cost.

(** Lines 56-61: the initial constraints. *)
Definition FG_eval_initial (fg vars : ADvector) : option ADvector :=
  v ← vars !! x_start; fg ← store fg (1 + x_start) v;
  v ← vars !! y_start; fg ← store fg (1 + y_start) v;
  v ← vars !! psi_start; fg ← store fg (1 + psi_start) v;
  v ← vars !! v_start; fg ← store fg (1 + v_start) v;
  v ← vars !! cte_start; fg ← store fg (1 + cte_start) v;
  v ← vars !! epsi_start; store fg (1 + epsi_start) v.

(** Lines 64-107: the body of the loop over [t] in [1, N). *)
Definition FG_eval_step (self : FG_eval) (vars : ADvector) (t : nat) (fg : ADvector)
  : option ADvector :=
  x0 ← vars !! (x_start + t - 1)%nat;
  y0 ← vars !! (y_start + t - 1)%nat;
  psi0 ← vars !! (psi_start + t - 1)%nat;
  v0 ← vars !! (v_start + t - 1)%nat;
  cte0 ← vars !! (cte_start + t - 1)%nat;
  epsi0 ← vars !! (epsi_start + t - 1)%nat;
  delta0 ← vars !! (delta_start + t - 1)%nat;
  a0 ← vars !! (a_start + t - 1)%nat;
  x1 ← vars !! (x_start + t)%nat;
  y1 ← vars !! (y_start + t)%nat;
  psi1 ← vars !! (psi_start + t)%nat;
  v1 ← vars !! (v_start + t)%nat;
  cte1 ← vars !! (cte_start + t)%nat;
  epsi1 ← vars !! (epsi_start + t)%nat;
  c0 ← coeffs self !! 0%nat;
  c1 ← coeffs self !! 1%nat;
  c2 ← coeffs self !! 2%nat;
  c3 ← coeffs self !! 3%nat;
  let f0 := c0 + c1 * x0 + c2 * x0 * x0 + c3 * x0 * x0 * x0 in
  let psides0 := atan (3 * c3 * x0 * x0 + 2 * c2 * x0 + c1) in
  fg ← store fg (1 + x_start + t) (x1 - (x0 + v0 * cos psi0 * dt));
  fg ← store fg (1 + y_start + t) (y1 - (y0 + v0 * sin psi0 * dt));
  fg ← store fg (1 + psi_start + t) (psi1 - (psi0 + (v0 / Lf) * delta0 * dt));
  fg ← store fg (1 + v_start + t) (v1 - (v0 + a0 * dt));
  fg ← store fg (1 + cte_start + t) (cte1 - ((f0 - y0) + (v0 * sin epsi0 * dt)));
  store fg (1 + epsi_start + t) (epsi1 - ((psi0 - psides0) + v0 * delta0 / Lf * dt)).

(** [FG_eval::operator()(fg, vars)]: the updated [fg]. *)
Definition FG_eval_call (self : FG_eval) (fg vars : ADvector) : option ADvector :=
  fg ← store fg 0 0;
  cost ← FG_eval_cost vars;
  fg ← store fg 0 cost;
  fg ← FG_eval_initial fg vars;
  for_loop 1 N (FG_eval_step self vars) fg.

(** ** [MPC::Solve] *)

(** Lines 134-145: the initial value of the independent variables. *)
Definition Solve_vars (state : VectorXd) : option Dvector :=
  let vars := Dvector_new n_vars in
  vars ← for_loop 0 n_vars (fun i vars => store vars i 0) vars;
  s ← state !! 0%nat; vars ← store vars x_start s;
  s ← state !! 1%nat; vars ← store vars y_start s;
  s ← state !! 2%nat; vars ← store vars psi_start s;
  s ← state !! 3%nat; vars ← store vars v_start s;
  s ← state !! 4%nat; vars ← store vars cte_start s;
  s ← state !! 5%nat; store vars epsi_start s.

(** [lower[i] = lo; upper[i] = up;] *)
Definition set_bounds (lo up : R) (i : nat) (b : Dvector * Dvector)
  : option (Dvector * Dvector) :=
  lower ← store b.1 i lo;
  upper ← store b.2 i up;
  Some (lower, upper).

(** Lines 149-165: the bounds of the variables. *)
Definition Solve_vars_bounds : option (Dvector * Dvector) :=
  let vars_lowerbound := Dvector_new n_vars in
  let vars_upperbound := Dvector_new n_vars in
  b ← for_loop 0 delta_start (set_bounds (-1.0e19) 1.0e19)
        (vars_lowerbound, vars_upperbound);
  b ← for_loop delta_start a_start (set_bounds (-0.436332) 0.436332) b;
  for_loop a_start n_vars (set_bounds (-1.0) 1.0) b.

(** Lines 169-188: the bounds of the constraints. *)
Definition Solve_constraints_bounds (state : VectorXd) : option (Dvector * Dvector) :=
  let constraints_lowerbound := Dvector_new n_constraints in
  let constraints_upperbound := Dvector_new n_constraints in
  b ← for_loop 0 n_constraints (set_bounds 0 0)
        (constraints_lowerbound, constraints_upperbound);
  let constraints_lowerbound := b.1 in
  let constraints_upperbound := b.2 in
  s ← state !! 0%nat; constraints_lowerbound ← store constraints_lowerbound x_start s;
  s ← state !! 1%nat; constraints_lowerbound ← store constraints_lowerbound y_start s;
  s ← state !! 2%nat; constraints_lowerbound ← store constraints_lowerbound psi_start s;
  s ← state !! 3%nat; constraints_lowerbound ← store constraints_lowerbound v_start s;
  s ← state !! 4%nat; constraints_lowerbound ← store constraints_lowerbound cte_start s;
  s ← state !! 5%nat; constraints_lowerbound ← store constraints_lowerbound epsi_start s;
  s ← state !! 0%nat; constraints_upperbound ← store constraints_upperbound x_start s;
  s ← state !! 1%nat; constraints_upperbound ← store constraints_upperbound y_start s;
  s ← state !! 2%nat; constraints_upperbound ← store constraints_upperbound psi_start s;
  s ← state !! 3%nat; constraints_upperbound ← store constraints_upperbound v_start s;
  s ← state !! 4%nat; constraints_upperbound ← store constraints_upperbound cte_start s;
  s ← state !! 5%nat; constraints_upperbound ← store constraints_upperbound epsi_start s;
  Some (constraints_lowerbound, constraints_upperbound).

(** Lines 197-209: the options of the solver. *)
Definition Solve_options : string :=
  let options := EmptyString in
  let options := (options ++ "Integer print_level  0" ++ nl)%string in
  let options := (options ++ "Sparse  true        forward" ++ nl)%string in
  let options := (options ++ "Sparse  true        reverse" ++ nl)%string in
  (options ++ "Numeric max_cpu_time          0.5" ++ nl)%string.

(** Lines 235-238: [ret.push_back(solution.x[i])] *)
Definition push_back_x (sol : Dvector) (i : nat) (ret : list R) : option (list R) :=
  xi ← sol !! i;
  Some (ret ++ [xi]).

(** [MPC::Solve(state, coeffs)], with the solver it calls. *)
Definition Solve (ipopt : ipopt_solver) (state coeffs : VectorXd) : M (list R) :=
  let ok := true in
  vars ← lift (Solve_vars state);
  vb ← lift Solve_vars_bounds;
  cb ← lift (Solve_constraints_bounds state);
  let fg_eval := mkFG_eval coeffs in
  let options := Solve_options in
  solution ← call_solver ipopt
    {| ip_options := options;
       ip_xi := vars;
       ip_xl := vb.1;
       ip_xu := vb.2;
       ip_gl := cb.1;
       ip_gu := cb.2;
       ip_fg_eval := FG_eval_call fg_eval |};
  let ok := ok && bool_decide (status solution = success) in
  let cost := obj_value solution in
  _ ← (if true then put_cout [cout_str "Cost "; cout_double cost; cout_endl]
       else mret tt);
  let ret := [] in
  ret ← lift (for_loop 0 (length (x solution)) (push_back_x (x solution)) ret);
  mret ret.

(** ** The formulation in the words of the specification *)

(** The entry of a channel at a timestep, [vars[start + t]]. *)
Definition at_step (vars : ADvector) (start t : nat) : R :=
  default 0 (vars !! (start + t)%nat).

Definition coeff (c : VectorXd) (i : nat) : R := default 0 (c !! i).

(** The sum of [g t] for [t = lo, lo+1, ..., lo+n-1]. *)
Fixpoint Rsum (lo n : nat) (g : nat -> R) : R :=
  match n with
  | O => 0
  | S n' => g lo + Rsum (S lo) n' g
  end.

(** The sum of [g t] for [t] in [[lo, hi)]. *)
Definition sum_over (lo hi : nat) (g : nat -> R) : R := Rsum lo (hi - lo) g.

(** The weighted squared terms of the objective, one sum per term. *)
Definition objective (vars : ADvector) : R :=
  sum_over 0 N (fun t => 1000 * (at_step vars cte_start t) ^ 2)
  + sum_over 0 N (fun t => 1000 * (at_step vars epsi_start t) ^ 2)
  + sum_over 1 N (fun t => 10 * (at_step vars v_start t - ref_v) ^ 2)
  + sum_over 0 (N - 1) (fun t => 3 * (at_step vars delta_start t) ^ 2)
  + sum_over 0 (N - 1) (fun t => 3 * (at_step vars a_start t) ^ 2)
  + sum_over 0 (N - 2)
      (fun t => 1000 * (at_step vars delta_start (t + 1) - at_step vars delta_start t) ^ 2)
  + sum_over 0 (N - 2)
      (fun t => 1 * (at_step vars a_start (t + 1) - at_step vars a_start t) ^ 2).

(** The reference curve and its heading. *)
Definition f (c : VectorXd) (x0 : R) : R :=
  coeff c 0 + coeff c 1 * x0 + coeff c 2 * x0 ^ 2 + coeff c 3 * x0 ^ 3.

Definition psides (c : VectorXd) (x0 : R) : R :=
  atan (3 * coeff c 3 * x0 ^ 2 + 2 * coeff c 2 * x0 + coeff c 1).

(** The state predicted for the step after [t0], from the values at [t0]. *)
Definition x1_pred (vars : ADvector) (t0 : nat) : R :=
  at_step vars x_start t0
  + at_step vars v_start t0 * cos (at_step vars psi_start t0) * dt.

Definition y1_pred (vars : ADvector) (t0 : nat) : R :=
  at_step vars y_start t0
  + at_step vars v_start t0 * sin (at_step vars psi_start t0) * dt.

Definition psi1_pred (vars : ADvector) (t0 : nat) : R :=
  at_step vars psi_start t0
  + (at_step vars v_start t0 / Lf) * at_step vars delta_start t0 * dt.

Definition v1_pred (vars : ADvector) (t0 : nat) : R :=
  at_step vars v_start t0 + at_step vars a_start t0 * dt.

Definition cte1_pred (c : VectorXd) (vars : ADvector) (t0 : nat) : R :=
  (f c (at_step vars x_start t0) - at_step vars y_start t0)
  + at_step vars v_start t0 * sin (at_step vars epsi_start t0) * dt.

Definition epsi1_pred (c : VectorXd) (vars : ADvector) (t0 : nat) : R :=
  (at_step vars psi_start t0 - psides c (at_step vars x_start t0))
  + at_step vars v_start t0 * at_step vars delta_start t0 / Lf * dt.

(** The six state channels, in the order of the layout. *)
Inductive channel := ch_x | ch_y | ch_psi | ch_v | ch_cte | ch_epsi.

Definition start (k : channel) : nat :=
  match k with
  | ch_x => x_start
  | ch_y => y_start
  | ch_psi => psi_start
  | ch_v => v_start
  | ch_cte => cte_start
  | ch_epsi => epsi_start
  end.

(** The position of a channel in the state vector [state[0..5]]. *)
Definition channel_index (k : channel) : nat :=
  match k with
  | ch_x => 0
  | ch_y => 1
  | ch_psi => 2
  | ch_v => 3
  | ch_cte => 4
  | ch_epsi => 5
  end.

Definition predicted (c : VectorXd) (vars : ADvector) (k : channel) (t0 : nat) : R :=
  match k with
  | ch_x => x1_pred vars t0
  | ch_y => y1_pred vars t0
  | ch_psi => psi1_pred vars t0
  | ch_v => v1_pred vars t0
  | ch_cte => cte1_pred c vars t0
  | ch_epsi => epsi1_pred c vars t0
  end.

(** Actual minus predicted, for step [t >= 1]. *)
Definition residual (c : VectorXd) (vars : ADvector) (k : channel) (t : nat) : R :=
  at_step vars (start k) t - predicted c vars k (t - 1).

(** Row [r] of the constraint vector: [fg[0]] is the objective and the
    constraints follow it. *)
Definition constraint_row (fg : ADvector) (r : nat) : option R := fg !! (1 + r)%nat.

(** A decision vector is feasible when every entry lies within its bounds and
    every constraint row of its evaluation [fg] lies within the bounds of the
    row. *)
Definition feasible (lower upper gl gu : Dvector) (vars fg : ADvector) : Prop :=
  (forall i, (i < length vars)%nat ->
     exists a l u, vars !! i = Some a /\ lower !! i = Some l /\ upper !! i = Some u
                   /\ l <= a <= u)
  /\ (forall r, (r < n_constraints)%nat ->
     exists g l u, constraint_row fg r = Some g /\ gl !! r = Some l /\ gu !! r = Some u
                   /\ l <= g <= u).

(** ** The vectors the code builds, in closed form *)

(** The six stores of one iteration of the loop. *)
Definition step_rows (c : VectorXd) (vars : ADvector) (t : nat) (fg : ADvector) : ADvector :=
  <[(1 + epsi_start + t)%nat := residual c vars ch_epsi t]>
  (<[(1 + cte_start + t)%nat := residual c vars ch_cte t]>
  (<[(1 + v_start + t)%nat := residual c vars ch_v t]>
  (<[(1 + psi_start + t)%nat := residual c vars ch_psi t]>
  (<[(1 + y_start + t)%nat := residual c vars ch_y t]>
  (<[(1 + x_start + t)%nat := residual c vars ch_x t]> fg))))).

(** The six stores of the initial constraints. *)
Definition initial_rows (vars fg : ADvector) : ADvector :=
  <[(1 + epsi_start)%nat := at_step vars epsi_start 0]>
  (<[(1 + cte_start)%nat := at_step vars cte_start 0]>
  (<[(1 + v_start)%nat := at_step vars v_start 0]>
  (<[(1 + psi_start)%nat := at_step vars psi_start 0]>
  (<[(1 + y_start)%nat := at_step vars y_start 0]>
  (<[(1 + x_start)%nat := at_step vars x_start 0]> fg))))).

(** The initial-state slots written into a vector, last store outermost. *)
Definition pin_state (state : VectorXd) (v : Dvector) : Dvector :=
  <[epsi_start := coeff state 5]>
  (<[cte_start := coeff state 4]>
  (<[v_start := coeff state 3]>
  (<[psi_start := coeff state 2]>
  (<[y_start := coeff state 1]>
  (<[x_start := coeff state 0]> v))))).

(** The problem that [Solve] hands to the solver. *)
Definition Solve_problem (state coeffs : VectorXd) : ipopt_problem :=
  {| ip_options := Solve_options;
     ip_xi := pin_state state (Dvector_new n_vars);
     ip_xl := default [] (fst <$> Solve_vars_bounds);
     ip_xu := default [] (snd <$> Solve_vars_bounds);
     ip_gl := pin_state state (Dvector_new n_constraints);
     ip_gu := pin_state state (Dvector_new n_constraints);
     ip_fg_eval := FG_eval_call (mkFG_eval coeffs) |}.

(** ** Tactics *)

(** One step of the option monad. *)
Ltac run := cbn [mbind option_bind].

Ltac offsets :=
  unfold n_vars, n_constraints, a_start, delta_start, epsi_start, cte_start,
    v_start, psi_start, y_start, x_start in *.

Ltac lookup_inserts :=
  repeat first
    [ rewrite list_lookup_insert_eq by (rewrite ?length_insert; offsets; lia)
    | rewrite list_lookup_insert_ne by (offsets; lia) ].

(** ** Vectors and loops *)

Lemma store_lt (v : list R) i a :
  (i < length v)%nat -> store v i a = Some (<[i := a]> v).
Proof. intros H. unfold store. by rewrite decide_True. Qed.

Lemma lookup_at_step (vars : ADvector) s t :
  (s + t < length vars)%nat -> vars !! (s + t)%nat = Some (at_step vars s t).
Proof.
  intros H. unfold at_step.
  destruct (lookup_lt_is_Some_2 vars (s + t) H) as [a ->]. done.
Qed.

Lemma lookup_coeff (c : VectorXd) i :
  (i < length c)%nat -> c !! i = Some (coeff c i).
Proof.
  intros H. unfold coeff.
  destruct (lookup_lt_is_Some_2 c i H) as [a ->]. done.
Qed.

(** The loop rule: an invariant [P t s] that holds on entry and is kept by
    every iteration holds at exit, and the loop does not fail. *)
Lemma for_range_inv {St : Type} (P : nat -> St -> Prop) body lo n (s : St) :
  P lo s ->
  (forall t s, (lo <= t < lo + n)%nat -> P t s ->
     exists s', body t s = Some s' /\ P (S t) s') ->
  exists s', for_range lo n body s = Some s' /\ P (lo + n)%nat s'.
Proof.
  revert lo s. induction n as [|n IH]; intros lo s H0 Hstep; simpl.
  - exists s. by rewrite Nat.add_0_r.
  - destruct (Hstep lo s ltac:(lia) H0) as (s1 & -> & H1). simpl.
    destruct (IH (S lo) s1 H1) as (s2 & Hs2 & H2).
    + intros t s' Ht. apply Hstep. lia.
    + exists s2. split; [done|]. by replace (lo + S n)%nat with (S lo + n)%nat by lia.
Qed.

(** A loop that adds [g t] to an accumulator computes the sum. *)
Lemma for_range_acc (g : nat -> R) body lo n c :
  (forall t c, (lo <= t < lo + n)%nat -> body t c = Some (c + g t)) ->
  for_range lo n body c = Some (c + Rsum lo n g).
Proof.
  revert lo c. induction n as [|n IH]; intros lo c Hstep; simpl.
  - f_equal. lra.
  - rewrite Hstep by lia. simpl. rewrite IH.
    + f_equal. lra.
    + intros t c' Ht. apply Hstep. lia.
Qed.

Lemma Rsum_plus g h lo n :
  Rsum lo n (fun t => g t + h t) = Rsum lo n g + Rsum lo n h.
Proof. revert lo. induction n as [|n IH]; intros lo; simpl; [lra|]. rewrite IH. lra. Qed.

Lemma Rsum_nonneg g lo n :
  (forall t, (lo <= t < lo + n)%nat -> 0 <= g t) -> 0 <= Rsum lo n g.
Proof.
  revert lo. induction n as [|n IH]; intros lo H; simpl; [lra|].
  specialize (H lo ltac:(lia)) as H1.
  specialize (IH (S lo) ltac:(intros t Ht; apply H; lia)). lra.
Qed.

Lemma Rsum_ext g h lo n :
  (forall t, (lo <= t < lo + n)%nat -> g t = h t) -> Rsum lo n g = Rsum lo n h.
Proof.
  revert lo. induction n as [|n IH]; intros lo H; simpl; [done|].
  rewrite (H lo) by lia. f_equal. apply IH. intros t Ht. apply H. lia.
Qed.

(** ** The cost *)

Lemma FG_eval_cost_objective (vars : ADvector) :
  (1 <= N)%nat -> length vars = n_vars ->
  FG_eval_cost vars = Some (objective vars).
Proof.
  intros HN Hlen. unfold FG_eval_cost, for_loop.
  rewrite (for_range_acc (fun t => 1000 * (at_step vars cte_start t) ^ 2
                                   + 1000 * (at_step vars epsi_start t) ^ 2)).
  2:{ intros t c Ht. unfold cost_reference.
      rewrite !lookup_at_step by (offsets; lia). run. apply (f_equal Some); ring. }
  run.
  rewrite (for_range_acc (fun t => 10 * (at_step vars v_start t - ref_v) ^ 2)).
  2:{ intros t c Ht. unfold cost_speed.
      rewrite !lookup_at_step by (offsets; lia). done. }
  run.
  rewrite (for_range_acc (fun t => 3 * (at_step vars delta_start t) ^ 2
                                   + 3 * (at_step vars a_start t) ^ 2)).
  2:{ intros t c Ht. unfold cost_actuators.
      rewrite !lookup_at_step by (offsets; lia). run. apply (f_equal Some); ring. }
  run.
  rewrite (for_range_acc
    (fun t => 1000 * (at_step vars delta_start (t + 1) - at_step vars delta_start t) ^ 2
              + 1 * (at_step vars a_start (t + 1) - at_step vars a_start t) ^ 2)).
  2:{ intros t c Ht. unfold cost_actuator_speed.
      rewrite <- !Nat.add_assoc.
      rewrite !lookup_at_step by (offsets; lia). run. apply (f_equal Some); ring. }
  apply (f_equal Some). unfold objective, sum_over. rewrite !Rsum_plus. ring.
Qed.

Lemma objective_nonneg (vars : ADvector) : 0 <= objective vars.
Proof.
  unfold objective, sum_over.
  repeat apply Rplus_le_le_0_compat;
    apply Rsum_nonneg; intros t _;
    (apply Rmult_le_pos; [lra | apply pow2_ge_0]).
Qed.

(** ** The constraint rows *)

Lemma f_source (c : VectorXd) x0 :
  coeff c 0 + coeff c 1 * x0 + coeff c 2 * x0 * x0 + coeff c 3 * x0 * x0 * x0 = f c x0.
Proof. unfold f. ring. Qed.

Lemma psides_source (c : VectorXd) x0 :
  atan (3 * coeff c 3 * x0 * x0 + 2 * coeff c 2 * x0 + coeff c 1) = psides c x0.
Proof. unfold psides. apply (f_equal atan). ring. Qed.

Lemma FG_eval_step_rows self (vars fg : ADvector) t :
  length vars = n_vars -> length (coeffs self) = 4%nat ->
  length fg = (1 + n_constraints)%nat -> (1 <= t < N)%nat ->
  FG_eval_step self vars t fg = Some (step_rows (coeffs self) vars t fg).
Proof.
  intros Hvars Hc Hfg Ht. unfold FG_eval_step.
  rewrite <- !Nat.add_sub_assoc by lia.
  rewrite !lookup_at_step by (offsets; lia).
  rewrite !lookup_coeff by lia. run.
  rewrite f_source, psides_source.
  repeat (rewrite store_lt by (rewrite ?length_insert; offsets; lia); run).
  reflexivity.
Qed.

Lemma length_step_rows c vars t fg : length (step_rows c vars t fg) = length fg.
Proof. unfold step_rows. by rewrite !length_insert. Qed.

(** The row written for channel [k] at step [t]. *)
Lemma step_rows_at c vars t fg k :
  length fg = (1 + n_constraints)%nat -> (1 <= t < N)%nat ->
  step_rows c vars t fg !! (1 + start k + t)%nat = Some (residual c vars k t).
Proof.
  intros Hfg Ht. unfold step_rows. destruct k; cbn [start]; by lookup_inserts.
Qed.

(** Every other row is left as it was. *)
Lemma step_rows_other c vars t fg i :
  (forall k, i <> 1 + start k + t)%nat ->
  step_rows c vars t fg !! i = fg !! i.
Proof.
  intros Hi. unfold step_rows.
  pose proof (Hi ch_x). pose proof (Hi ch_y). pose proof (Hi ch_psi).
  pose proof (Hi ch_v). pose proof (Hi ch_cte). pose proof (Hi ch_epsi).
  cbn [start] in *. by rewrite !list_lookup_insert_ne by lia.
Qed.

Lemma start_rows_distinct k k' t t' :
  (t < N)%nat -> (t' < N)%nat ->
  (start k + t = start k' + t')%nat -> k = k' /\ t = t'.
Proof. intros Ht Ht'. destruct k, k'; cbn [start]; offsets; intros H; (split; [done || lia | lia]). Qed.

(** The loop over [t] in [1, N): every residual row is written, nothing else
    is touched. *)
Lemma FG_eval_loop_rows self (vars fg : ADvector) :
  length vars = n_vars -> length (coeffs self) = 4%nat ->
  length fg = (1 + n_constraints)%nat ->
  exists fg', for_loop 1 N (FG_eval_step self vars) fg = Some fg'
    /\ length fg' = length fg
    /\ (forall k t, (1 <= t < N)%nat ->
          fg' !! (1 + start k + t)%nat = Some (residual (coeffs self) vars k t))
    /\ (forall i, (forall k t, (1 <= t < N)%nat -> i <> 1 + start k + t)%nat ->
          fg' !! i = fg !! i).
Proof.
  intros Hvars Hc Hfg. unfold for_loop.
  destruct (for_range_inv
    (fun n (g : ADvector) =>
       length g = length fg
       /\ (forall k t, (1 <= t < n)%nat ->
             g !! (1 + start k + t)%nat = Some (residual (coeffs self) vars k t))
       /\ (forall i, (forall k t, (1 <= t < N)%nat -> i <> 1 + start k + t)%nat ->
             g !! i = fg !! i))
    (FG_eval_step self vars) 1 (N - 1) fg) as (fg' & Hrun & Hlen & Hrows & Hframe).
  - split; [done|]. split; [intros; lia | done].
  - intros t g Ht (Hlen & Hrows & Hframe).
    rewrite FG_eval_step_rows by (done || lia). eexists; split; [done|].
    split; [by rewrite length_step_rows|]. split.
    + intros k j Hj. destruct (decide (j = t)) as [->|Hne].
      * apply step_rows_at; lia.
      * rewrite step_rows_other; [apply Hrows; lia|].
        intros k' Heq. apply (f_equal pred) in Heq. simpl in Heq.
        apply start_rows_distinct in Heq; lia.
    + intros i Hi. rewrite step_rows_other; [by apply Hframe|].
      intros k. apply Hi. lia.
  - exists fg'. split; [done|]. split; [done|]. split; [|done].
    intros k t Ht. apply Hrows. lia.
Qed.

Lemma lookup_at_start (vars : ADvector) s :
  (s < length vars)%nat -> vars !! s = Some (at_step vars s 0).
Proof.
  intros H. unfold at_step. rewrite Nat.add_0_r.
  destruct (lookup_lt_is_Some_2 vars s H) as [a ->]. done.
Qed.

Lemma FG_eval_initial_rows (vars fg : ADvector) :
  (1 <= N)%nat -> length vars = n_vars -> length fg = (1 + n_constraints)%nat ->
  FG_eval_initial fg vars = Some (initial_rows vars fg).
Proof.
  intros HN Hvars Hfg. unfold FG_eval_initial.
  rewrite !lookup_at_start by (offsets; lia). run.
  repeat (rewrite store_lt by (rewrite ?length_insert; offsets; lia); run).
  reflexivity.
Qed.

Lemma initial_rows_at vars fg k :
  (1 <= N)%nat -> length fg = (1 + n_constraints)%nat ->
  initial_rows vars fg !! (1 + start k)%nat = Some (at_step vars (start k) 0).
Proof.
  intros HN Hfg. unfold initial_rows. destruct k; cbn [start]; by lookup_inserts.
Qed.

Lemma initial_rows_0 vars fg :
  initial_rows vars fg !! 0%nat = fg !! 0%nat.
Proof. unfold initial_rows. by rewrite !list_lookup_insert_ne by lia. Qed.

(** [FG_eval::operator()] on vectors of the sizes the solver passes: it
    returns, [fg[0]] is the objective, the row of each channel at step 0 is
    the decision variable itself and the row at step [t >= 1] is the
    residual. *)
Lemma FG_eval_call_rows self (fg vars : ADvector) :
  (1 <= N)%nat -> length vars = n_vars -> length (coeffs self) = 4%nat ->
  length fg = (1 + n_constraints)%nat ->
  exists fg', FG_eval_call self fg vars = Some fg'
    /\ length fg' = (1 + n_constraints)%nat
    /\ fg' !! 0%nat = Some (objective vars)
    /\ (forall k, fg' !! (1 + start k)%nat = Some (at_step vars (start k) 0))
    /\ (forall k t, (1 <= t < N)%nat ->
          fg' !! (1 + start k + t)%nat = Some (residual (coeffs self) vars k t)).
Proof.
  intros HN Hvars Hc Hfg. unfold FG_eval_call.
  rewrite store_lt by lia. run.
  rewrite FG_eval_cost_objective by done. run.
  rewrite store_lt by (rewrite length_insert; lia). run.
  set (fg0 := <[0%nat := objective vars]> (<[0%nat := 0]> fg)).
  assert (Hfg0 : length fg0 = (1 + n_constraints)%nat)
    by (unfold fg0; by rewrite !length_insert).
  rewrite FG_eval_initial_rows by done. run.
  set (fg1 := initial_rows vars fg0).
  assert (Hfg1 : length fg1 = (1 + n_constraints)%nat)
    by (unfold fg1, initial_rows; by rewrite !length_insert).
  destruct (FG_eval_loop_rows self vars fg1 Hvars Hc Hfg1)
    as (fg' & Hrun & Hlen & Hrows & Hframe).
  exists fg'. split; [done|]. split; [lia|]. split; [|split; [|done]].
  - rewrite Hframe by (intros; lia). unfold fg1. rewrite initial_rows_0.
    unfold fg0. apply list_lookup_insert_eq. rewrite length_insert. lia.
  - intros k. rewrite Hframe.
    + by apply initial_rows_at.
    + intros k' t Ht Heq. apply (f_equal pred) in Heq. simpl in Heq.
      replace (start k) with (start k + 0)%nat in Heq by lia.
      apply start_rows_distinct in Heq; lia.
Qed.

(** ** The vectors built by [Solve] *)

(** Setting every entry of a fresh vector to zero leaves it as it is. *)
Lemma zero_loop n :
  for_loop 0 n (fun i (v : Dvector) => store v i 0) (Dvector_new n)
  = Some (Dvector_new n).
Proof.
  unfold for_loop, Dvector_new.
  destruct (for_range_inv (fun _ (v : Dvector) => v = replicate n 0)
    (fun i (v : Dvector) => store v i 0) 0 (n - 0) (replicate n 0) eq_refl)
    as (v & Hrun & ->); [|done].
  intros t v Ht ->. rewrite store_lt by (rewrite length_replicate; lia).
  rewrite insert_replicate. by eexists.
Qed.

Lemma zero_bounds_loop n :
  for_loop 0 n (set_bounds 0 0) (Dvector_new n, Dvector_new n)
  = Some (Dvector_new n, Dvector_new n).
Proof.
  unfold for_loop, Dvector_new.
  destruct (for_range_inv
    (fun _ (b : Dvector * Dvector) => b = (replicate n 0, replicate n 0))
    (set_bounds 0 0) 0 (n - 0) (replicate n 0, replicate n 0) eq_refl)
    as (v & Hrun & ->); [|done].
  intros t v Ht ->. unfold set_bounds. cbn [fst snd].
  rewrite store_lt by (rewrite length_replicate; lia). run.
  rewrite insert_replicate. by eexists.
Qed.

(** A loop of [set_bounds] writes the pair of bounds on [[lo, hi)] and leaves
    the other entries. *)
Lemma set_bounds_loop (lv uv : R) lo hi (b : Dvector * Dvector) :
  (hi <= length b.1)%nat -> (hi <= length b.2)%nat ->
  exists b', for_loop lo hi (set_bounds lv uv) b = Some b'
    /\ length b'.1 = length b.1 /\ length b'.2 = length b.2
    /\ (forall i, (lo <= i < hi)%nat -> b'.1 !! i = Some lv /\ b'.2 !! i = Some uv)
    /\ (forall i, ~ (lo <= i < hi)%nat -> b'.1 !! i = b.1 !! i /\ b'.2 !! i = b.2 !! i).
Proof.
  intros H1 H2. unfold for_loop.
  destruct (for_range_inv
    (fun t (b' : Dvector * Dvector) =>
       length b'.1 = length b.1 /\ length b'.2 = length b.2
       /\ (forall i, (lo <= i < t)%nat -> b'.1 !! i = Some lv /\ b'.2 !! i = Some uv)
       /\ (forall i, ~ (lo <= i < t)%nat -> b'.1 !! i = b.1 !! i /\ b'.2 !! i = b.2 !! i))
    (set_bounds lv uv) lo (hi - lo) b) as (b' & Hrun & Hl1 & Hl2 & Hin & Hout).
  - repeat split; intros; lia || done.
  - intros t [l u] Ht (Hl1 & Hl2 & Hin & Hout). cbn [fst snd] in *.
    unfold set_bounds. cbn [fst snd].
    rewrite !store_lt by lia. run. eexists; split; [done|]. cbn [fst snd].
    rewrite !length_insert. split; [done|]. split; [done|]. split.
    + intros i Hi. destruct (decide (i = t)) as [->|Hne].
      * rewrite !list_lookup_insert_eq by lia. done.
      * rewrite !list_lookup_insert_ne by done. apply Hin. lia.
    + intros i Hi. rewrite !list_lookup_insert_ne by lia. apply Hout. lia.
  - exists b'. split; [done|]. split; [done|]. split; [done|]. split.
    + intros i Hi. apply Hin. lia.
    + intros i Hi. apply Hout. lia.
Qed.

(** Lines 149-165, by index range. *)
Lemma Solve_vars_bounds_ranges :
  (1 <= N)%nat ->
  exists lower upper, Solve_vars_bounds = Some (lower, upper)
    /\ length lower = n_vars /\ length upper = n_vars
    /\ (forall i, (i < delta_start)%nat ->
          lower !! i = Some (-1.0e19) /\ upper !! i = Some 1.0e19)
    /\ (forall i, (delta_start <= i < a_start)%nat ->
          lower !! i = Some (-0.436332) /\ upper !! i = Some 0.436332)
    /\ (forall i, (a_start <= i < n_vars)%nat ->
          lower !! i = Some (-1.0) /\ upper !! i = Some 1.0).
Proof.
  intros HN. unfold Solve_vars_bounds.
  destruct (set_bounds_loop (-1.0e19) 1.0e19 0 delta_start
              (Dvector_new n_vars, Dvector_new n_vars))
    as (b1 & -> & L1 & U1 & In1 & Out1);
    [cbn [fst snd]; unfold Dvector_new; rewrite length_replicate; offsets; lia ..|].
  cbn [fst snd] in *. unfold Dvector_new in L1, U1. rewrite length_replicate in L1, U1.
  run.
  destruct (set_bounds_loop (-0.436332) 0.436332 delta_start a_start b1)
    as (b2 & -> & L2 & U2 & In2 & Out2); [offsets; lia ..|].
  run.
  destruct (set_bounds_loop (-1.0) 1.0 a_start n_vars b2)
    as (b3 & -> & L3 & U3 & In3 & Out3); [offsets; lia ..|].
  destruct b3 as [lower upper]. cbn [fst snd] in *.
  exists lower, upper. split; [done|].
  split; [lia|]. split; [lia|]. split; [|split].
  - intros i Hi.
    destruct (Out3 i ltac:(offsets; lia)) as [-> ->].
    destruct (Out2 i ltac:(offsets; lia)) as [-> ->].
    apply In1. lia.
  - intros i Hi.
    destruct (Out3 i ltac:(offsets; lia)) as [-> ->].
    by apply In2.
  - intros i Hi. by apply In3.
Qed.

Lemma lookup_state (state : VectorXd) i :
  (i < length state)%nat -> state !! i = Some (coeff state i).
Proof. apply lookup_coeff. Qed.

Lemma length_pin_state state v : length (pin_state state v) = length v.
Proof. unfold pin_state. by rewrite !length_insert. Qed.

Lemma pin_state_at state (v : Dvector) k :
  (1 <= N)%nat -> (N * 6 <= length v)%nat -> length state = 6%nat ->
  pin_state state v !! start k = state !! channel_index k.
Proof.
  intros HN Hv Hs. unfold pin_state.
  rewrite (lookup_state state (channel_index k)) by (destruct k; simpl; lia).
  destruct k; cbn [start channel_index]; by lookup_inserts.
Qed.

Lemma pin_state_other state (v : Dvector) i :
  (forall k, i <> start k) -> pin_state state v !! i = v !! i.
Proof.
  intros Hi. unfold pin_state.
  pose proof (Hi ch_x). pose proof (Hi ch_y). pose proof (Hi ch_psi).
  pose proof (Hi ch_v). pose proof (Hi ch_cte). pose proof (Hi ch_epsi).
  cbn [start] in *. by rewrite !list_lookup_insert_ne by lia.
Qed.

(** Lines 134-145. *)
Lemma Solve_vars_pin (state : VectorXd) :
  (1 <= N)%nat -> length state = 6%nat ->
  Solve_vars state = Some (pin_state state (Dvector_new n_vars)).
Proof.
  intros HN Hs. unfold Solve_vars. rewrite zero_loop. run.
  rewrite !lookup_state by lia. run.
  repeat (rewrite store_lt
            by (rewrite ?length_insert; unfold Dvector_new;
                rewrite length_replicate; offsets; lia); run).
  reflexivity.
Qed.

(** Lines 169-188. *)
Lemma Solve_constraints_bounds_pin (state : VectorXd) :
  (1 <= N)%nat -> length state = 6%nat ->
  Solve_constraints_bounds state
  = Some (pin_state state (Dvector_new n_constraints),
          pin_state state (Dvector_new n_constraints)).
Proof.
  intros HN Hs. unfold Solve_constraints_bounds. rewrite zero_bounds_loop. run.
  cbn [fst snd]. rewrite !lookup_state by lia. run.
  repeat (rewrite store_lt
            by (rewrite ?length_insert; unfold Dvector_new;
                rewrite length_replicate; offsets; lia); run).
  reflexivity.
Qed.

(** Lines 235-238: the loop copies [solution.x]. *)
Lemma push_back_loop (sol : Dvector) :
  for_loop 0 (length sol) (push_back_x sol) [] = Some sol.
Proof.
  unfold for_loop.
  destruct (for_range_inv (fun t (r : list R) => r = take t sol)
    (push_back_x sol) 0 (length sol - 0) []) as (r & Hrun & ->).
  - done.
  - intros t r Ht ->. unfold push_back_x.
    destruct (lookup_lt_is_Some_2 sol t ltac:(lia)) as [a Ha].
    rewrite Ha. run. eexists; split; [done|]. by rewrite (take_S_r _ _ _ Ha).
  - rewrite Hrun. f_equal. apply take_ge. lia.
Qed.

(** [Solve] on a six-entry state: one call of the solver, one line on
    standard output, and [solution.x] returned, whatever the status. *)
Lemma Solve_run ipopt (state coeffs : VectorXd) w :
  (1 <= N)%nat -> length state = 6%nat ->
  Solve ipopt state coeffs w
  = Some (x (ipopt (Solve_problem state coeffs)),
          {| cout := cout w ++ [cout_str "Cost ";
                                cout_double (obj_value (ipopt (Solve_problem state coeffs)));
                                cout_endl];
             solves := S (solves w) |}).
Proof.
  intros HN Hs. unfold Solve, Solve_problem.
  destruct (Solve_vars_bounds_ranges HN) as (lower & upper & Hb & _).
  unfold mbind, M_bind, lift.
  rewrite Solve_vars_pin, Hb, Solve_constraints_bounds_pin by done.
  cbn [call_solver put_cout fst snd fmap option_fmap option_map default].
  rewrite push_back_loop. reflexivity.
Qed.

(** ** The all-zero decision vector *)

Lemma at_step_zero n s t : at_step (Dvector_new n) s t = 0.
Proof.
  unfold at_step, Dvector_new.
  destruct (replicate n 0 !! (s + t)%nat) as [a|] eqn:E; [|done].
  by apply lookup_replicate_1 in E as [-> _].
Qed.

Lemma Rsum_const c lo n : Rsum lo n (fun _ => c) = INR n * c.
Proof.
  revert lo. induction n as [|n IH]; intros lo.
  - simpl. lra.
  - cbn [Rsum]. rewrite IH, S_INR. lra.
Qed.

Lemma Rsum_zero g lo n : (forall t, g t = 0) -> Rsum lo n g = 0.
Proof.
  intros H. rewrite (Rsum_ext g (fun _ => 0)) by auto. rewrite Rsum_const. ring.
Qed.

Lemma objective_zero n : objective (Dvector_new n) = 10 * INR (N - 1) * ref_v ^ 2.
Proof.
  unfold objective, sum_over.
  rewrite (Rsum_ext _ (fun _ => 10 * ref_v ^ 2) 1)
    by (intros; rewrite !at_step_zero; ring).
  rewrite Rsum_const.
  rewrite !Rsum_zero by (intros; rewrite !at_step_zero; ring).
  ring.
Qed.

Lemma residual_zero n k t : residual [0; 0; 0; 0] (Dvector_new n) k t = 0.
Proof.
  unfold residual, predicted, x1_pred, y1_pred, psi1_pred, v1_pred, cte1_pred,
    epsi1_pred, f, psides.
  change (coeff [0; 0; 0; 0] 0) with 0. change (coeff [0; 0; 0; 0] 1) with 0.
  change (coeff [0; 0; 0; 0] 2) with 0. change (coeff [0; 0; 0; 0] 3) with 0.
  destruct k; rewrite !at_step_zero; unfold Rdiv; try ring.
  replace (3 * 0 * 0 ^ 2 + 2 * 0 * 0 + 0) with 0 by ring. rewrite atan_0. ring.
Qed.

Lemma lookup_Dvector_new n i : (i < n)%nat -> Dvector_new n !! i = Some 0.
Proof. apply lookup_replicate_2. Qed.

(** Every row index is the row of one channel at one step. *)
Lemma row_channel_step r :
  (r < n_constraints)%nat -> exists k t, (t < N)%nat /\ r = (start k + t)%nat.
Proof.
  intros Hr.
  destruct (decide (r < N)%nat); [exists ch_x, r; cbn [start]; offsets; lia|].
  destruct (decide (r < 2 * N)%nat);
    [exists ch_y, (r - N)%nat; cbn [start]; offsets; lia|].
  destruct (decide (r < 3 * N)%nat);
    [exists ch_psi, (r - 2 * N)%nat; cbn [start]; offsets; lia|].
  destruct (decide (r < 4 * N)%nat);
    [exists ch_v, (r - 3 * N)%nat; cbn [start]; offsets; lia|].
  destruct (decide (r < 5 * N)%nat);
    [exists ch_cte, (r - 4 * N)%nat; cbn [start]; offsets; lia|].
  exists ch_epsi, (r - 5 * N)%nat; cbn [start]; offsets; lia.
Qed.

Lemma start_channel_index k : start k = (channel_index k * N)%nat.
Proof. destruct k; cbn [start channel_index]; offsets; lia. Qed.

(** ** The claims *)

(** C5: for every decision vector of the length of the layout, the
    evaluator returns, and the objective it leaves in [fg[0]] is the sum of
    exactly the weighted squared terms: 1000 cte_t^2 and 1000 epsi_t^2 for t
    in [0, N), 10 (v_t - ref_v)^2 for t in [1, N), 3 delta_t^2 and 3 a_t^2
    for t in [0, N-1), 1000 (delta_{t+1} - delta_t)^2 and
    1 (a_{t+1} - a_t)^2 for t in [0, N-2). *)
Theorem objective_is_weighted_sum (cs fg vars : list R) :
  (2 <= N)%nat -> length vars = n_vars -> length cs = 4%nat ->
  length fg = (1 + n_constraints)%nat ->
  exists fg', FG_eval_call (mkFG_eval cs) fg vars = Some fg'
    /\ fg' !! 0%nat = Some (objective vars).
Proof.
  intros HN Hvars Hc Hfg.
  destruct (FG_eval_call_rows (mkFG_eval cs) fg vars) as (fg' & Hrun & _ & H0 & _);
    [lia | done ..|].
  by exists fg'.
Qed.

(** C10: for every decision vector and every coefficient vector, the
    objective assembled into [fg[0]] is nonnegative. *)
Theorem objective_nonnegative (cs fg vars : list R) :
  (2 <= N)%nat -> length vars = n_vars -> length cs = 4%nat ->
  length fg = (1 + n_constraints)%nat ->
  exists fg' cost, FG_eval_call (mkFG_eval cs) fg vars = Some fg'
    /\ fg' !! 0%nat = Some cost /\ 0 <= cost.
Proof.
  intros HN Hvars Hc Hfg.
  destruct (FG_eval_call_rows (mkFG_eval cs) fg vars) as (fg' & Hrun & _ & H0 & _);
    [lia | done ..|].
  exists fg', (objective vars). split; [done|]. split; [done|]. apply objective_nonneg.
Qed.

(** C4: for every decision vector and every t in [1, N), the constraint
    row of each of the six state channels at step t is the actual value at
    step t minus the value predicted from step t-1 by the kinematic
    formulas [x1_pred], [y1_pred], [psi1_pred], [v1_pred], [cte1_pred] and
    [epsi1_pred], with [f] the cubic polynomial and [psides] the arctangent
    of its derivative. *)
Theorem residual_rows_are_actual_minus_predicted (cs fg vars : list R) :
  (2 <= N)%nat -> length vars = n_vars -> length cs = 4%nat ->
  length fg = (1 + n_constraints)%nat ->
  exists fg', FG_eval_call (mkFG_eval cs) fg vars = Some fg'
    /\ forall t, (1 <= t < N)%nat ->
         constraint_row fg' (x_start + t)
           = Some (at_step vars x_start t - x1_pred vars (t - 1))
         /\ constraint_row fg' (y_start + t)
           = Some (at_step vars y_start t - y1_pred vars (t - 1))
         /\ constraint_row fg' (psi_start + t)
           = Some (at_step vars psi_start t - psi1_pred vars (t - 1))
         /\ constraint_row fg' (v_start + t)
           = Some (at_step vars v_start t - v1_pred vars (t - 1))
         /\ constraint_row fg' (cte_start + t)
           = Some (at_step vars cte_start t - cte1_pred cs vars (t - 1))
         /\ constraint_row fg' (epsi_start + t)
           = Some (at_step vars epsi_start t - epsi1_pred cs vars (t - 1)).
Proof.
  intros HN Hvars Hc Hfg.
  destruct (FG_eval_call_rows (mkFG_eval cs) fg vars) as (fg' & Hrun & _ & _ & _ & Hrows);
    [lia | done ..|].
  exists fg'. split; [done|]. intros t Ht. unfold constraint_row.
  rewrite !Nat.add_assoc.
  pose proof (Hrows ch_x t Ht). pose proof (Hrows ch_y t Ht).
  pose proof (Hrows ch_psi t Ht). pose proof (Hrows ch_v t Ht).
  pose proof (Hrows ch_cte t Ht). pose proof (Hrows ch_epsi t Ht).
  done.
Qed.

(** C3, as the code has it: the constraint vector has length N*6; the
    row of channel k at step t is row k*N + t; for t >= 1 it holds the
    residual; the six rows k*N (step 0) hold the decision variable itself
    and are the only rows whose lower and upper bounds are the component k
    of the vehicle state, and every other row has lower and upper bound 0. *)
Theorem constraint_rows_channel_major (state cs fg vars : list R) :
  (2 <= N)%nat -> length state = 6%nat -> length vars = n_vars ->
  length cs = 4%nat -> length fg = (1 + n_constraints)%nat ->
  exists gl gu fg',
    Solve_constraints_bounds state = Some (gl, gu)
    /\ FG_eval_call (mkFG_eval cs) fg vars = Some fg'
    /\ length gl = (N * 6)%nat /\ length gu = (N * 6)%nat
    /\ length fg' = (1 + N * 6)%nat
    /\ (forall k t, (1 <= t < N)%nat ->
          constraint_row fg' (channel_index k * N + t) = Some (residual cs vars k t))
    /\ (forall k,
          constraint_row fg' (channel_index k * N) = vars !! (channel_index k * N)%nat
          /\ gl !! (channel_index k * N)%nat = state !! channel_index k
          /\ gu !! (channel_index k * N)%nat = state !! channel_index k)
    /\ (forall r, (r < N * 6)%nat -> (forall k, r <> channel_index k * N)%nat ->
          gl !! r = Some 0 /\ gu !! r = Some 0).
Proof.
  intros HN Hs Hvars Hc Hfg.
  destruct (FG_eval_call_rows (mkFG_eval cs) fg vars)
    as (fg' & Hrun & Hlen & _ & Hinit & Hrows); [lia | done ..|].
  eexists _, _, fg'. split; [apply Solve_constraints_bounds_pin; [lia|done]|].
  split; [done|]. rewrite !length_pin_state. unfold Dvector_new.
  rewrite length_replicate. split; [done|]. split; [done|]. split; [done|].
  split; [|split].
  - intros k t Ht. rewrite <- start_channel_index. by apply Hrows.
  - intros k. rewrite <- start_channel_index. unfold constraint_row.
    rewrite Hinit, pin_state_at by (rewrite ?length_replicate; done || lia).
    split; [|done]. symmetry. apply lookup_at_start.
    rewrite Hvars. destruct k; cbn [start]; offsets; lia.
  - intros r Hr Hk. rewrite pin_state_other.
    + by rewrite lookup_replicate_2.
    + intros k. rewrite start_channel_index. apply Hk.
Qed.

(** C6: [Solve] builds two bound arrays of the length of the decision
    vector; every state-channel entry is bounded by -1e19 and 1e19, every
    delta entry by -0.436332 and 0.436332, every a entry by -1 and 1. *)
Theorem variable_bounds :
  (1 <= N)%nat ->
  exists lower upper, Solve_vars_bounds = Some (lower, upper)
    /\ length lower = n_vars /\ length upper = n_vars
    /\ (forall k t, (t < N)%nat ->
          lower !! (start k + t)%nat = Some (-1e19)
          /\ upper !! (start k + t)%nat = Some 1e19)
    /\ (forall t, (t < N - 1)%nat ->
          lower !! (delta_start + t)%nat = Some (-0.436332)
          /\ upper !! (delta_start + t)%nat = Some 0.436332)
    /\ (forall t, (t < N - 1)%nat ->
          lower !! (a_start + t)%nat = Some (-1)
          /\ upper !! (a_start + t)%nat = Some 1).
Proof.
  intros HN.
  destruct (Solve_vars_bounds_ranges HN) as (lower & upper & Hrun & Hl & Hu & Hs & Hd & Ha).
  exists lower, upper. split; [done|]. split; [done|]. split; [done|].
  split; [|split].
  - intros k t Ht.
    destruct (Hs (start k + t)%nat) as [-> ->];
      [destruct k; cbn [start]; offsets; lia|].
    split; apply (f_equal Some); lra.
  - intros t Ht. apply Hd. offsets; lia.
  - intros t Ht. destruct (Ha (a_start + t)%nat) as [-> ->]; [offsets; lia|].
    split; apply (f_equal Some); lra.
Qed.

(** C7: the seed of the decision vector built by [Solve] has length
    N*6 + (N-1)*2; the step-0 slot of each of the six state channels holds
    the matching component of the vehicle state and every other entry is
    zero. *)
Theorem initial_vars_seed (state : list R) :
  (1 <= N)%nat -> length state = 6%nat ->
  exists vars, Solve_vars state = Some vars
    /\ length vars = (N * 6 + (N - 1) * 2)%nat
    /\ (forall k, vars !! start k = state !! channel_index k)
    /\ (forall i, (i < N * 6 + (N - 1) * 2)%nat -> (forall k, i <> start k) ->
          vars !! i = Some 0).
Proof.
  intros HN Hs. eexists. split; [by apply Solve_vars_pin|].
  rewrite length_pin_state. unfold Dvector_new. rewrite length_replicate.
  split; [done|]. split.
  - intros k. apply pin_state_at; [done| |done].
    rewrite length_replicate. offsets; lia.
  - intros i Hi Hk. rewrite pin_state_other by done. by apply lookup_replicate_2.
Qed.

(** C8, as the code has it: for [Lf <> 0], with the zero vehicle state and
    the zero polynomial the all-zero decision vector is feasible (it lies
    within the variable bounds and every constraint row lies within its
    bounds), and the objective evaluated at it is 10 (N-1) ref_v^2.  At
    [Lf = 0] the quotients by [Lf] in the psi and epsi rows are not numbers
    in the code, and nothing is stated. *)
Theorem zero_vector_feasible_with_speed_cost (fg : list R) :
  (2 <= N)%nat -> Lf <> 0 -> length fg = (1 + n_constraints)%nat ->
  exists lower upper gl gu fg',
    Solve_vars_bounds = Some (lower, upper)
    /\ Solve_constraints_bounds [0; 0; 0; 0; 0; 0] = Some (gl, gu)
    /\ FG_eval_call (mkFG_eval [0; 0; 0; 0]) fg (Dvector_new n_vars) = Some fg'
    /\ feasible lower upper gl gu (Dvector_new n_vars) fg'
    /\ fg' !! 0%nat = Some (10 * INR (N - 1) * ref_v ^ 2).
Proof.
  intros HN HLf Hfg.
  assert (Hvars : length (Dvector_new n_vars) = n_vars)
    by (unfold Dvector_new; by rewrite length_replicate).
  destruct (Solve_vars_bounds_ranges ltac:(lia))
    as (lower & upper & Hb & Hl & Hu & Hs & Hd & Ha).
  destruct (FG_eval_call_rows (mkFG_eval [0; 0; 0; 0]) fg (Dvector_new n_vars))
    as (fg' & Hrun & Hlen & H0 & Hinit & Hrows); [lia | done ..|].
  eexists lower, upper, _, _, fg'. split; [done|].
  split; [apply Solve_constraints_bounds_pin; [lia|done]|].
  split; [done|]. split; [|by rewrite H0, objective_zero].
  split.
  - intros i Hi. rewrite Hvars in Hi. rewrite lookup_Dvector_new by done.
    destruct (decide (i < delta_start)%nat) as [H1|H1];
      [destruct (Hs i H1) as [-> ->]; eexists _, _, _; repeat split; lra|].
    destruct (decide (i < a_start)%nat) as [H2|H2];
      [destruct (Hd i ltac:(lia)) as [-> ->]; eexists _, _, _; repeat split; lra|].
    destruct (Ha i ltac:(lia)) as [-> ->]. eexists _, _, _; repeat split; lra.
  - intros r Hr.
    destruct (row_channel_step r Hr) as (k & t & Ht & ->). unfold constraint_row.
    exists 0, 0, 0. destruct (decide (t = 0)%nat) as [->|Hne].
    + rewrite Nat.add_0_r, Hinit, at_step_zero.
      rewrite pin_state_at
        by (done || lia || unfold Dvector_new; rewrite length_replicate; done).
      destruct k; repeat split; done || lra.
    + rewrite Nat.add_assoc, Hrows by lia. cbn [coeffs]. rewrite residual_zero.
      rewrite pin_state_other.
      * rewrite lookup_Dvector_new by done. repeat split; done || lra.
      * intros k' Heq. replace (start k') with (start k' + 0)%nat in Heq by lia.
        apply start_rows_distinct in Heq; lia.
Qed.


(** C9, as the code has it: a call of [Solve] keeps no state for later
    calls: what it returns and what it writes do not depend on the process
    it runs in; besides the call of the solver its one effect is the line
    [Cost <objective value>] written to standard output. *)
Theorem Solve_effects ipopt (state cs : list R) :
  (1 <= N)%nat -> length state = 6%nat ->
  exists result line,
    line = [cout_str "Cost ";
            cout_double (obj_value (ipopt (Solve_problem state cs)));
            cout_endl]
    /\ forall w, Solve ipopt state cs w
        = Some (result, {| cout := cout w ++ line; solves := S (solves w) |}).
Proof.
  intros HN Hs. eexists _, _. split; [done|]. intros w. by apply Solve_run.
Qed.

(** X16: the status of the solver does not reach the caller: two solvers
    that agree on the primal vector and the objective value give the same
    run. *)
Lemma Solve_ignores_status ipopt1 ipopt2 (state cs : list R) w :
  (1 <= N)%nat -> length state = 6%nat ->
  x (ipopt1 (Solve_problem state cs)) = x (ipopt2 (Solve_problem state cs)) ->
  obj_value (ipopt1 (Solve_problem state cs)) = obj_value (ipopt2 (Solve_problem state cs)) ->
  Solve ipopt1 state cs w = Solve ipopt2 state cs w.
Proof. intros HN Hs Hx Ho. rewrite !Solve_run by done. by rewrite Hx, Ho. Qed.

(** ** Further properties of the evaluator *)

(** Every index of the decision vector is a state channel at a step, or a
    steering or acceleration entry at an actuation step. *)
Lemma var_index_cases i :
  (1 <= N)%nat -> (i < n_vars)%nat ->
  (exists k t, (t < N)%nat /\ i = (start k + t)%nat)
  \/ (exists t, (t < N - 1)%nat /\ i = (delta_start + t)%nat)
  \/ (exists t, (t < N - 1)%nat /\ i = (a_start + t)%nat).
Proof.
  intros HN Hi.
  destruct (decide (i < n_constraints)%nat) as [H1|H1];
    [left; by apply row_channel_step|].
  destruct (decide (i < a_start)%nat) as [H2|H2].
  - right; left. exists (i - delta_start)%nat. offsets; lia.
  - right; right. exists (i - a_start)%nat. offsets; lia.
Qed.

Lemma at_step_insert_ne (vars : ADvector) i a s t :
  i <> (s + t)%nat -> at_step (<[i := a]> vars) s t = at_step vars s t.
Proof. intros H. unfold at_step. by rewrite list_lookup_insert_ne. Qed.

Lemma Rsum_zero_inv g lo n :
  (forall t, (lo <= t < lo + n)%nat -> 0 <= g t) ->
  Rsum lo n g = 0 -> forall t, (lo <= t < lo + n)%nat -> g t = 0.
Proof.
  revert lo. induction n as [|n IH]; intros lo Hpos Hsum t Ht; [lia|].
  cbn [Rsum] in Hsum.
  pose proof (Hpos lo ltac:(lia)) as H0.
  pose proof (Rsum_nonneg g (S lo) n ltac:(intros; apply Hpos; lia)) as H1.
  destruct (decide (t = lo)) as [->|Hne]; [lra|].
  apply (IH (S lo)); [intros; apply Hpos; lia | lra | lia].
Qed.

Lemma Rsum_zero_in g lo n :
  (forall t, (lo <= t < lo + n)%nat -> g t = 0) -> Rsum lo n g = 0.
Proof.
  intros H. rewrite (Rsum_ext g (fun _ => 0)) by done. rewrite Rsum_const. ring.
Qed.

Lemma weighted_square_zero w a : 0 < w -> w * a ^ 2 = 0 -> a = 0.
Proof.
  intros Hw H. destruct (Rmult_integral _ _ H) as [H0|H0]; [lra|].
  simpl in H0. destruct (Rmult_integral _ _ H0) as [H1|H1]; lra.
Qed.

Lemma weighted_square_nonneg w a : 0 < w -> 0 <= w * a ^ 2.
Proof. intros Hw. apply Rmult_le_pos; [lra | apply pow2_ge_0]. Qed.

(** X1: the evaluator overwrites every entry of [fg]: on vectors of the
    sizes of the layout its result does not depend on what [fg] held. *)
Theorem FG_eval_call_overwrites_fg self (fg1 fg2 vars : list R) :
  (2 <= N)%nat -> length vars = n_vars -> length (coeffs self) = 4%nat ->
  length fg1 = (1 + n_constraints)%nat -> length fg2 = (1 + n_constraints)%nat ->
  exists fg', FG_eval_call self fg1 vars = Some fg'
    /\ FG_eval_call self fg2 vars = Some fg'.
Proof.
  intros HN Hvars Hc H1 H2.
  destruct (FG_eval_call_rows self fg1 vars) as (r1 & Hr1 & L1 & O1 & I1 & R1);
    [lia | done ..|].
  destruct (FG_eval_call_rows self fg2 vars) as (r2 & Hr2 & L2 & O2 & I2 & R2);
    [lia | done ..|].
  exists r1. split; [done|]. rewrite Hr2. f_equal. apply list_eq. intros i.
  destruct (decide (i < 1 + n_constraints)%nat) as [Hi|Hi].
  - destruct i as [|r]; [by rewrite O1, O2|].
    destruct (row_channel_step r ltac:(lia)) as (k & t & Ht & ->).
    destruct (decide (t = 0)%nat) as [->|Hne].
    + rewrite Nat.add_0_r. change (S (start k)) with (1 + start k)%nat.
      by rewrite I1, I2.
    + change (S (start k + t)) with (1 + (start k + t))%nat.
      rewrite Nat.add_assoc. by rewrite R1, R2 by lia.
  - rewrite !lookup_ge_None_2 by lia. done.
Qed.

(** X3: the objective does not see the position and heading channels
    nor the speed at step 0: overwriting any entry at an index up to
    [v_start] leaves [fg[0]] as it was. *)
Theorem objective_ignores_position (cs fg vars : list R) i a :
  (2 <= N)%nat -> length vars = n_vars -> length cs = 4%nat ->
  length fg = (1 + n_constraints)%nat -> (i <= v_start)%nat ->
  exists fg1 fg2, FG_eval_call (mkFG_eval cs) fg vars = Some fg1
    /\ FG_eval_call (mkFG_eval cs) fg (<[i := a]> vars) = Some fg2
    /\ fg1 !! 0%nat = fg2 !! 0%nat.
Proof.
  intros HN Hvars Hc Hfg Hi.
  destruct (FG_eval_call_rows (mkFG_eval cs) fg vars) as (r1 & Hr1 & _ & O1 & _);
    [lia | done ..|].
  destruct (FG_eval_call_rows (mkFG_eval cs) fg (<[i := a]> vars))
    as (r2 & Hr2 & _ & O2 & _); [lia | by rewrite length_insert | done ..|].
  exists r1, r2. split; [done|]. split; [done|]. rewrite O1, O2. f_equal.
  unfold objective, sum_over.
  repeat apply (f_equal2 Rplus); apply Rsum_ext; intros t Ht;
    rewrite !at_step_insert_ne by (offsets; lia); done.
Qed.

(** X4: the objective is zero exactly when every cross-track and heading
    error is zero, the speed equals [ref_v] at every step from 1 on and
    every actuation is zero. *)
Theorem objective_zero_iff (cs fg vars : list R) :
  (2 <= N)%nat -> length vars = n_vars -> length cs = 4%nat ->
  length fg = (1 + n_constraints)%nat ->
  exists fg', FG_eval_call (mkFG_eval cs) fg vars = Some fg'
    /\ (fg' !! 0%nat = Some 0 <->
        (forall t, (t < N)%nat ->
           at_step vars cte_start t = 0 /\ at_step vars epsi_start t = 0)
        /\ (forall t, (1 <= t < N)%nat -> at_step vars v_start t = ref_v)
        /\ (forall t, (t < N - 1)%nat ->
           at_step vars delta_start t = 0 /\ at_step vars a_start t = 0)).
Proof.
  intros HN Hvars Hc Hfg.
  destruct (FG_eval_call_rows (mkFG_eval cs) fg vars) as (fg' & Hrun & _ & H0 & _);
    [lia | done ..|].
  exists fg'. split; [done|]. rewrite H0. split.
  - intros H. apply (inj Some) in H. unfold objective, sum_over in H.
    match type of H with
    | ?s1 + ?s2 + ?s3 + ?s4 + ?s5 + ?s6 + ?s7 = 0 =>
        assert (P1 : 0 <= s1) by (apply Rsum_nonneg; intros; apply weighted_square_nonneg; lra);
        assert (P2 : 0 <= s2) by (apply Rsum_nonneg; intros; apply weighted_square_nonneg; lra);
        assert (P3 : 0 <= s3) by (apply Rsum_nonneg; intros; apply weighted_square_nonneg; lra);
        assert (P4 : 0 <= s4) by (apply Rsum_nonneg; intros; apply weighted_square_nonneg; lra);
        assert (P5 : 0 <= s5) by (apply Rsum_nonneg; intros; apply weighted_square_nonneg; lra);
        assert (P6 : 0 <= s6) by (apply Rsum_nonneg; intros; apply weighted_square_nonneg; lra);
        assert (P7 : 0 <= s7) by (apply Rsum_nonneg; intros; apply weighted_square_nonneg; lra);
        assert (Z1 : s1 = 0) by lra; assert (Z2 : s2 = 0) by lra;
        assert (Z3 : s3 = 0) by lra; assert (Z4 : s4 = 0) by lra;
        assert (Z5 : s5 = 0) by lra
    end.
    split; [|split].
    + intros t Ht. split.
      * apply (weighted_square_zero 1000); [lra|].
        refine (Rsum_zero_inv _ _ _ _ Z1 t _);
          [intros; apply weighted_square_nonneg; lra | lia].
      * apply (weighted_square_zero 1000); [lra|].
        refine (Rsum_zero_inv _ _ _ _ Z2 t _);
          [intros; apply weighted_square_nonneg; lra | lia].
    + intros t Ht.
      enough (at_step vars v_start t - ref_v = 0) by lra.
      apply (weighted_square_zero 10); [lra|].
      refine (Rsum_zero_inv _ _ _ _ Z3 t _);
        [intros; apply weighted_square_nonneg; lra | lia].
    + intros t Ht. split.
      * apply (weighted_square_zero 3); [lra|].
        refine (Rsum_zero_inv _ _ _ _ Z4 t _);
          [intros; apply weighted_square_nonneg; lra | lia].
      * apply (weighted_square_zero 3); [lra|].
        refine (Rsum_zero_inv _ _ _ _ Z5 t _);
          [intros; apply weighted_square_nonneg; lra | lia].
  - intros (Htrack & Hspeed & Hact). f_equal. unfold objective, sum_over.
    rewrite !Rsum_zero_in; [ring | intros t Ht ..].
    all: rewrite ?Hspeed by lia.
    all: try (destruct (Htrack t ltac:(lia)) as [E1 E2]; rewrite ?E1, ?E2).
    all: try (destruct (Hact t ltac:(lia)) as [E3 E4]; rewrite ?E3, ?E4).
    all: try (destruct (Hact (t + 1)%nat ltac:(lia)) as [E5 E6]; rewrite ?E5, ?E6).
    all: ring.
Qed.

Lemma at_step_lookup_eq (v1 v2 : ADvector) s t :
  v1 !! (s + t)%nat = v2 !! (s + t)%nat -> at_step v1 s t = at_step v2 s t.
Proof. intros H. unfold at_step. by rewrite H. Qed.

(** The prediction for the next step reads the six state channels and the
    two actuators at the current step, and nothing else. *)
Lemma predicted_ext cs (v1 v2 : ADvector) k t :
  (forall k', at_step v1 (start k') t = at_step v2 (start k') t) ->
  at_step v1 delta_start t = at_step v2 delta_start t ->
  at_step v1 a_start t = at_step v2 a_start t ->
  predicted cs v1 k t = predicted cs v2 k t.
Proof.
  intros Hs Hd Ha.
  pose proof (Hs ch_x) as Hx. pose proof (Hs ch_y) as Hy.
  pose proof (Hs ch_psi) as Hpsi. pose proof (Hs ch_v) as Hv.
  pose proof (Hs ch_cte) as Hcte. pose proof (Hs ch_epsi) as Hepsi.
  cbn [start] in *.
  unfold predicted, x1_pred, y1_pred, psi1_pred, v1_pred, cte1_pred, epsi1_pred.
  destruct k; by rewrite ?Hx, ?Hy, ?Hpsi, ?Hv, ?Hcte, ?Hepsi, ?Hd, ?Ha.
Qed.

(** X5: the equality constraints leave no freedom in the states: two
    decision vectors whose residual rows are all zero, with the same state
    at step 0 and the same actuations, are the same vector. *)
Theorem zero_residuals_determine_trajectory (cs fg vars1 vars2 : list R) :
  (2 <= N)%nat -> length vars1 = n_vars -> length vars2 = n_vars ->
  length cs = 4%nat -> length fg = (1 + n_constraints)%nat ->
  exists fg1 fg2,
    FG_eval_call (mkFG_eval cs) fg vars1 = Some fg1
    /\ FG_eval_call (mkFG_eval cs) fg vars2 = Some fg2
    /\ ((forall k t, (1 <= t < N)%nat ->
           constraint_row fg1 (start k + t) = Some 0
           /\ constraint_row fg2 (start k + t) = Some 0) ->
        (forall k, vars1 !! start k = vars2 !! start k) ->
        (forall t, (t < N - 1)%nat ->
           vars1 !! (delta_start + t)%nat = vars2 !! (delta_start + t)%nat
           /\ vars1 !! (a_start + t)%nat = vars2 !! (a_start + t)%nat) ->
        vars1 = vars2).
Proof.
  intros HN H1 H2 Hc Hfg.
  destruct (FG_eval_call_rows (mkFG_eval cs) fg vars1) as (fg1 & Hr1 & _ & _ & _ & R1);
    [lia | done ..|].
  destruct (FG_eval_call_rows (mkFG_eval cs) fg vars2) as (fg2 & Hr2 & _ & _ & _ & R2);
    [lia | done ..|].
  exists fg1, fg2. split; [done|]. split; [done|].
  intros Hzero Hinit Hact. cbn [coeffs] in *.
  assert (Hstates : forall t, (t < N)%nat ->
            forall k, at_step vars1 (start k) t = at_step vars2 (start k) t).
  { induction t as [|t IH]; intros Ht k.
    - apply at_step_lookup_eq. rewrite Nat.add_0_r. apply Hinit.
    - destruct (Hzero k (S t) ltac:(lia)) as [Z1 Z2]. unfold constraint_row in Z1, Z2.
      rewrite Nat.add_assoc in Z1, Z2.
      rewrite R1 in Z1 by lia. rewrite R2 in Z2 by lia.
      apply (inj Some) in Z1. apply (inj Some) in Z2. unfold residual in Z1, Z2.
      replace (S t - 1)%nat with t in Z1, Z2 by lia.
      destruct (Hact t ltac:(lia)) as [Hd Ha].
      assert (E : predicted cs vars1 k t = predicted cs vars2 k t)
        by (apply predicted_ext; [apply IH; lia | by apply at_step_lookup_eq ..]).
      lra. }
  apply list_eq. intros i.
  destruct (decide (i < n_vars)%nat) as [Hi|Hi].
  - destruct (var_index_cases i ltac:(lia) Hi)
      as [(k & t & Ht & ->)|[(t & Ht & ->)|(t & Ht & ->)]].
    + rewrite !lookup_at_step
        by (rewrite ?H1, ?H2; destruct k; cbn [start]; offsets; lia).
      f_equal. by apply Hstates.
    + apply Hact. lia.
    + apply Hact. lia.
  - rewrite !lookup_ge_None_2 by lia. done.
Qed.

(** X6: the row of a channel at step [t >= 1] reads the decision vector at
    steps [t - 1] and [t] only: overwriting an entry that is neither a state
    or actuator entry of step [t - 1] nor the entry of that channel at step
    [t] leaves the row as it was. *)
Theorem residual_row_is_local (cs fg vars : list R) k t i a :
  (2 <= N)%nat -> length vars = n_vars -> length cs = 4%nat ->
  length fg = (1 + n_constraints)%nat -> (1 <= t < N)%nat ->
  (forall k', i <> start k' + (t - 1))%nat ->
  (i <> delta_start + (t - 1))%nat -> (i <> a_start + (t - 1))%nat ->
  (i <> start k + t)%nat ->
  exists fg1 fg2, FG_eval_call (mkFG_eval cs) fg vars = Some fg1
    /\ FG_eval_call (mkFG_eval cs) fg (<[i := a]> vars) = Some fg2
    /\ constraint_row fg1 (start k + t) = constraint_row fg2 (start k + t).
Proof.
  intros HN Hvars Hc Hfg Ht Hs Hd Ha Hown.
  destruct (FG_eval_call_rows (mkFG_eval cs) fg vars) as (r1 & Hr1 & _ & _ & _ & R1);
    [lia | done ..|].
  destruct (FG_eval_call_rows (mkFG_eval cs) fg (<[i := a]> vars))
    as (r2 & Hr2 & _ & _ & _ & R2); [lia | by rewrite length_insert | done ..|].
  exists r1, r2. split; [done|]. split; [done|]. unfold constraint_row.
  rewrite Nat.add_assoc, R1, R2 by done. f_equal. cbn [coeffs]. unfold residual.
  rewrite at_step_insert_ne by done. f_equal. symmetry.
  apply predicted_ext; [intros k'|..]; by apply at_step_insert_ne.
Qed.

(** ** Further properties of the vectors built by [Solve] *)

Lemma start_or_not i : (exists k, i = start k) \/ (forall k, i <> start k).
Proof.
  destruct (decide (i = x_start)); [left; by exists ch_x|].
  destruct (decide (i = y_start)); [left; by exists ch_y|].
  destruct (decide (i = psi_start)); [left; by exists ch_psi|].
  destruct (decide (i = v_start)); [left; by exists ch_v|].
  destruct (decide (i = cte_start)); [left; by exists ch_cte|].
  destruct (decide (i = epsi_start)); [left; by exists ch_epsi|].
  right. intros k. by destruct k.
Qed.

(** X7: every constraint is an equality constraint: the lower and the
    upper bound array of the constraints are the same vector. *)
Theorem constraint_bounds_are_equalities (state : list R) :
  (1 <= N)%nat -> length state = 6%nat ->
  exists g, Solve_constraints_bounds state = Some (g, g) /\ length g = n_constraints.
Proof.
  intros HN Hs. eexists. split; [by apply Solve_constraints_bounds_pin|].
  rewrite length_pin_state. unfold Dvector_new. by rewrite length_replicate.
Qed.

(** X8: the box of the variable bounds is symmetric about zero and has
    zero strictly inside, at every index of the decision vector. *)
Theorem variable_box_symmetric :
  (1 <= N)%nat ->
  exists lower upper, Solve_vars_bounds = Some (lower, upper)
    /\ forall i, (i < n_vars)%nat ->
         exists u, upper !! i = Some u /\ lower !! i = Some (- u) /\ 0 < u.
Proof.
  intros HN.
  destruct (Solve_vars_bounds_ranges HN) as (lower & upper & Hb & _ & _ & Hs & Hd & Ha).
  exists lower, upper. split; [done|]. intros i Hi.
  destruct (decide (i < delta_start)%nat) as [H1|H1].
  { destruct (Hs i H1) as [-> ->]. exists 1.0e19.
    split; [done|]. split; [apply (f_equal Some)|]; lra. }
  destruct (decide (i < a_start)%nat) as [H2|H2].
  { destruct (Hd i ltac:(lia)) as [-> ->]. exists 0.436332.
    split; [done|]. split; [apply (f_equal Some)|]; lra. }
  destruct (Ha i ltac:(lia)) as [-> ->]. exists 1.0.
  split; [done|]. split; [apply (f_equal Some)|]; lra.
Qed.

(** X9: the seed respects the variable bounds whenever the six
    components of the state lie between -1e19 and 1e19. *)
Theorem seed_within_variable_bounds (state : list R) :
  (1 <= N)%nat -> length state = 6%nat ->
  (forall k s, state !! channel_index k = Some s -> -1e19 <= s <= 1e19) ->
  exists vars lower upper,
    Solve_vars state = Some vars /\ Solve_vars_bounds = Some (lower, upper)
    /\ forall i, (i < n_vars)%nat ->
         exists a l u, vars !! i = Some a /\ lower !! i = Some l
                       /\ upper !! i = Some u /\ l <= a <= u.
Proof.
  intros HN Hs Hrange.
  destruct (Solve_vars_bounds_ranges HN) as (lower & upper & Hb & _ & _ & Hst & Hd & Ha).
  eexists _, lower, upper. split; [by apply Solve_vars_pin|]. split; [done|].
  intros i Hi.
  destruct (start_or_not i) as [[k ->]|Hne].
  - rewrite pin_state_at
      by (done || unfold Dvector_new; rewrite length_replicate; offsets; lia).
    destruct (lookup_lt_is_Some_2 state (channel_index k)
                ltac:(destruct k; simpl; lia)) as [s Hk].
    destruct (Hst (start k) ltac:(destruct k; cbn [start]; offsets; lia)) as [-> ->].
    exists s, (-1.0e19), 1.0e19. specialize (Hrange k s Hk).
    repeat split; done || lra.
  - rewrite pin_state_other by done.
    rewrite lookup_Dvector_new by done.
    destruct (decide (i < delta_start)%nat) as [H1|H1];
      [destruct (Hst i H1) as [-> ->]; eexists _, _, _; repeat split; lra|].
    destruct (decide (i < a_start)%nat) as [H2|H2];
      [destruct (Hd i ltac:(lia)) as [-> ->]; eexists _, _, _; repeat split; lra|].
    destruct (Ha i ltac:(lia)) as [-> ->]. eexists _, _, _; repeat split; lra.
Qed.

(** X10: the seed satisfies the six pinned rows: evaluated at the seed,
    the step-0 row of every channel equals both its lower and its upper
    bound. *)
Theorem seed_satisfies_pinned_rows (state cs fg : list R) :
  (2 <= N)%nat -> length state = 6%nat -> length cs = 4%nat ->
  length fg = (1 + n_constraints)%nat ->
  exists vars gl gu fg',
    Solve_vars state = Some vars
    /\ Solve_constraints_bounds state = Some (gl, gu)
    /\ FG_eval_call (mkFG_eval cs) fg vars = Some fg'
    /\ forall k, constraint_row fg' (start k) = gl !! start k
                 /\ constraint_row fg' (start k) = gu !! start k.
Proof.
  intros HN Hs Hc Hfg.
  assert (Hlen : length (pin_state state (Dvector_new n_vars)) = n_vars)
    by (rewrite length_pin_state; unfold Dvector_new; by rewrite length_replicate).
  destruct (FG_eval_call_rows (mkFG_eval cs) fg (pin_state state (Dvector_new n_vars)))
    as (fg' & Hrun & _ & _ & Hinit & _); [lia | done ..|].
  eexists _, _, _, fg'. split; [apply Solve_vars_pin; lia || done|].
  split; [apply Solve_constraints_bounds_pin; lia || done|]. split; [done|].
  intros k. unfold constraint_row. rewrite Hinit.
  rewrite <- lookup_at_start by (rewrite Hlen; destruct k; cbn [start]; offsets; lia).
  rewrite !pin_state_at
    by (done || lia || unfold Dvector_new; rewrite length_replicate; offsets; lia).
  done.
Qed.

(** ** The sizes the evaluator needs *)

Lemma store_length (v v' : list R) i a : store v i a = Some v' -> length v' = length v.
Proof.
  unfold store. destruct (decide (i < length v)%nat); [|done].
  intros H. apply (inj Some) in H. subst v'. apply length_insert.
Qed.

Lemma store_ge (v : list R) i a : (length v <= i)%nat -> store v i a = None.
Proof. intros H. unfold store. rewrite decide_False by lia. done. Qed.

(** Two loops whose bodies agree on the range agree. *)
Lemma for_range_ext {St : Type} (b1 b2 : nat -> St -> option St) lo n (s : St) :
  (forall t s, (lo <= t < lo + n)%nat -> b1 t s = b2 t s) ->
  for_range lo n b1 s = for_range lo n b2 s.
Proof.
  revert lo s. induction n as [|n IH]; intros lo s H; [done|]. simpl.
  rewrite H by lia. destruct (b2 lo s); [|done]. simpl. apply IH.
  intros t s' Ht. apply H. lia.
Qed.

(** A loop fails when one of its iterations fails on every state that the
    earlier iterations can leave. *)
Lemma for_range_fail {St : Type} (P : St -> Prop) body lo n t0 (s : St) :
  (lo <= t0 < lo + n)%nat -> P s ->
  (forall t s s', body t s = Some s' -> P s -> P s') ->
  (forall s, P s -> body t0 s = None) ->
  for_range lo n body s = None.
Proof.
  revert lo s. induction n as [|n IH]; intros lo s Ht Hs Hpres Hfail; [lia|]. simpl.
  destruct (decide (t0 = lo)) as [->|Hne]; [by rewrite Hfail|].
  destruct (body lo s) as [s'|] eqn:E; [|done]. simpl.
  apply IH; [lia | by eapply Hpres | done | done].
Qed.

Lemma FG_eval_cost_short (vars : ADvector) :
  (2 <= N)%nat -> (length vars < n_vars)%nat -> FG_eval_cost vars = None.
Proof.
  intros HN Hlen. unfold FG_eval_cost.
  destruct (for_loop 0 N (cost_reference vars) 0); run; [|done].
  destruct (for_loop 1 N (cost_speed vars) r); run; [|done].
  unfold for_loop.
  rewrite (for_range_fail (fun _ => True) (cost_actuators vars) 0 (N - 1 - 0) (N - 2));
    [done | lia | done | done |].
  intros c _. unfold cost_actuators.
  destruct (vars !! (delta_start + (N - 2))%nat); run; [|done].
  by rewrite lookup_ge_None_2 by (offsets; lia).
Qed.

Lemma FG_eval_step_short_coeffs self (vars fg : ADvector) t :
  (length (coeffs self) < 4)%nat -> FG_eval_step self vars t fg = None.
Proof.
  intros Hc. unfold FG_eval_step.
  assert (H3 : coeffs self !! 3%nat = None) by (apply lookup_ge_None_2; lia).
  do 17 (lazymatch goal with
         | |- (?o ≫= _) = None => destruct o; run; [|reflexivity]
         end).
  by rewrite H3.
Qed.

Lemma FG_eval_initial_length (fg fg' vars : ADvector) :
  FG_eval_initial fg vars = Some fg' -> length fg' = length fg.
Proof.
  unfold FG_eval_initial. intros H.
  repeat lazymatch type of H with
    | (store ?v ?i ?a ≫= _) = Some _ =>
        let E := fresh "E" in
        destruct (store v i a) eqn:E; cbn [mbind option_bind] in H; [|done];
        apply store_length in E
    | (?o ≫= _) = Some _ => destruct o; cbn [mbind option_bind] in H; [|done]
    end.
  apply store_length in H. congruence.
Qed.

Lemma FG_eval_step_length self (vars fg fg' : ADvector) t :
  FG_eval_step self vars t fg = Some fg' -> length fg' = length fg.
Proof.
  unfold FG_eval_step. intros H.
  repeat lazymatch type of H with
    | (store ?v ?i ?a ≫= _) = Some _ =>
        let E := fresh "E" in
        destruct (store v i a) eqn:E; cbn [mbind option_bind] in H; [|done];
        apply store_length in E
    | (?o ≫= _) = Some _ => destruct o; cbn [mbind option_bind] in H; [|done]
    end.
  apply store_length in H. congruence.
Qed.

Lemma FG_eval_step_short_fg self (vars fg : ADvector) :
  (1 <= N)%nat -> (length fg < 1 + n_constraints)%nat ->
  FG_eval_step self vars (N - 1) fg = None.
Proof.
  intros HN Hfg. unfold FG_eval_step.
  do 18 (lazymatch goal with
         | |- (?o ≫= _) = None => destruct o; run; [|reflexivity]
         end).
  repeat lazymatch goal with
    | |- (store ?v ?i ?a ≫= _) = None =>
        let E := fresh "E" in
        destruct (store v i a) eqn:E; run; [|reflexivity];
        apply store_length in E
    end.
  apply store_ge. offsets; lia.
Qed.

Lemma FG_eval_call_succeeds self (fg vars : ADvector) :
  (1 <= N)%nat -> (n_vars <= length vars)%nat -> (4 <= length (coeffs self))%nat ->
  (1 + n_constraints <= length fg)%nat ->
  is_Some (FG_eval_call self fg vars).
Proof.
  intros HN Hvars Hc Hfg. unfold FG_eval_call.
  rewrite store_lt by lia. run.
  assert (Hcost : is_Some (FG_eval_cost vars)).
  { unfold FG_eval_cost, for_loop.
    destruct (for_range_inv (fun _ (_ : R) => True) (cost_reference vars) 0 (N - 0) 0 I)
      as (c1 & -> & _).
    { intros t c Ht _. unfold cost_reference.
      rewrite !lookup_at_step by (offsets; lia). run. by eexists. }
    run.
    destruct (for_range_inv (fun _ (_ : R) => True) (cost_speed vars) 1 (N - 1) c1 I)
      as (c2 & -> & _).
    { intros t c Ht _. unfold cost_speed.
      rewrite !lookup_at_step by (offsets; lia). run. by eexists. }
    run.
    destruct (for_range_inv (fun _ (_ : R) => True) (cost_actuators vars) 0 (N - 1 - 0) c2 I)
      as (c3 & -> & _).
    { intros t c Ht _. unfold cost_actuators.
      rewrite !lookup_at_step by (offsets; lia). run. by eexists. }
    run.
    destruct (for_range_inv (fun _ (_ : R) => True) (cost_actuator_speed vars)
                0 (N - 2 - 0) c3 I) as (c4 & -> & _); [|done].
    intros t c Ht _. unfold cost_actuator_speed. rewrite <- !Nat.add_assoc.
    rewrite !lookup_at_step by (offsets; lia). run. by eexists. }
  destruct Hcost as [cost ->]. run.
  rewrite store_lt by (rewrite length_insert; lia). run.
  unfold FG_eval_initial.
  rewrite !lookup_at_start by (offsets; lia). run.
  repeat (rewrite store_lt by (rewrite ?length_insert; offsets; lia); run).
  match goal with |- is_Some (for_loop 1 N _ ?g) => set (fg1 := g) end.
  assert (Hfg1 : length fg1 = length fg) by (unfold fg1; by rewrite !length_insert).
  unfold for_loop.
  destruct (for_range_inv (fun _ (g : ADvector) => length g = length fg)
              (FG_eval_step self vars) 1 (N - 1) fg1 Hfg1) as (fg' & -> & _); [|done].
  intros t g Ht Hg. unfold FG_eval_step.
  rewrite <- !Nat.add_sub_assoc by lia.
  rewrite !lookup_at_step by (offsets; lia).
  rewrite !lookup_coeff by lia. run.
  repeat (rewrite store_lt by (rewrite ?length_insert; offsets; lia); run).
  eexists. split; [done|]. by rewrite !length_insert.
Qed.

(** X11: for a horizon of at least two steps the evaluator returns
    exactly when [vars] has at least [n_vars] entries, the polynomial has at
    least four coefficients and [fg] has at least [1 + n_constraints]
    entries; on anything shorter it indexes out of range. *)
Theorem FG_eval_call_domain self (fg vars : list R) :
  (2 <= N)%nat ->
  is_Some (FG_eval_call self fg vars)
  <-> (n_vars <= length vars)%nat /\ (4 <= length (coeffs self))%nat
      /\ (1 + n_constraints <= length fg)%nat.
Proof.
  intros HN. split.
  - intros Hsome.
    destruct (decide (n_vars <= length vars)%nat) as [Hv|Hv].
    2:{ exfalso. unfold FG_eval_call in Hsome.
        destruct (store fg 0 0); cbn [mbind option_bind] in Hsome;
          [|by destruct Hsome].
        rewrite FG_eval_cost_short in Hsome by lia. by destruct Hsome. }
    destruct (decide (4 <= length (coeffs self))%nat) as [Hc|Hc].
    2:{ exfalso. unfold FG_eval_call in Hsome.
        destruct (store fg 0 0); cbn [mbind option_bind] in Hsome;
          [|by destruct Hsome].
        destruct (FG_eval_cost vars); cbn [mbind option_bind] in Hsome;
          [|by destruct Hsome].
        destruct (store _ 0 _); cbn [mbind option_bind] in Hsome;
          [|by destruct Hsome].
        destruct (FG_eval_initial _ vars); cbn [mbind option_bind] in Hsome;
          [|by destruct Hsome].
        unfold for_loop in Hsome.
        rewrite (for_range_fail (fun _ => True) (FG_eval_step self vars) 1 (N - 1) 1)
          in Hsome; [by destruct Hsome | lia | done | done |].
        intros g _. apply FG_eval_step_short_coeffs. lia. }
    destruct (decide (1 + n_constraints <= length fg)%nat) as [Hf|Hf]; [done|].
    exfalso. unfold FG_eval_call in Hsome.
    destruct (store fg 0 0) as [fga|] eqn:Ea; cbn [mbind option_bind] in Hsome;
      [|by destruct Hsome].
    destruct (FG_eval_cost vars) as [cost|]; cbn [mbind option_bind] in Hsome;
      [|by destruct Hsome].
    destruct (store fga 0 cost) as [fgb|] eqn:Eb; cbn [mbind option_bind] in Hsome;
      [|by destruct Hsome].
    destruct (FG_eval_initial fgb vars) as [fgc|] eqn:Ec;
      cbn [mbind option_bind] in Hsome; [|by destruct Hsome].
    apply store_length in Ea, Eb. apply FG_eval_initial_length in Ec.
    unfold for_loop in Hsome.
    rewrite (for_range_fail (fun g : ADvector => length g = length fg)
               (FG_eval_step self vars) 1 (N - 1) (N - 1)) in Hsome;
      [by destruct Hsome | lia | congruence | |].
    + intros t g g' Hstep Hg. apply FG_eval_step_length in Hstep. congruence.
    + intros g Hg. apply FG_eval_step_short_fg; lia.
  - intros (Hv & Hc & Hf). apply FG_eval_call_succeeds; lia || done.
Qed.

(** X12: the evaluator reads the first four coefficients only: further
    entries of the coefficient vector do not change its result. *)
Theorem FG_eval_call_ignores_extra_coeffs (cs extra fg vars : list R) :
  (4 <= length cs)%nat ->
  FG_eval_call (mkFG_eval (cs ++ extra)) fg vars = FG_eval_call (mkFG_eval cs) fg vars.
Proof.
  intros Hc. unfold FG_eval_call.
  destruct (store fg 0 0); run; [|done].
  destruct (FG_eval_cost vars); run; [|done].
  destruct (store _ 0 _); run; [|done].
  destruct (FG_eval_initial _ vars); run; [|done].
  unfold for_loop. apply for_range_ext. intros t g Ht.
  unfold FG_eval_step. cbn [coeffs]. by rewrite !lookup_app_l by lia.
Qed.

(** ** Further properties of [Solve] *)

Lemma Solve_vars_short (state : VectorXd) :
  (length state < 6)%nat -> Solve_vars state = None.
Proof.
  intros Hs. unfold Solve_vars.
  do 11 (lazymatch goal with
         | |- (?o ≫= _) = None => destruct o; run; [|reflexivity]
         end).
  by rewrite lookup_ge_None_2 by lia.
Qed.

Lemma Solve_vars_app (state extra : VectorXd) :
  (6 <= length state)%nat -> Solve_vars (state ++ extra) = Solve_vars state.
Proof. intros Hs. unfold Solve_vars. by rewrite !lookup_app_l by lia. Qed.

Lemma Solve_constraints_bounds_app (state extra : VectorXd) :
  (6 <= length state)%nat ->
  Solve_constraints_bounds (state ++ extra) = Solve_constraints_bounds state.
Proof. intros Hs. unfold Solve_constraints_bounds. by rewrite !lookup_app_l by lia. Qed.

(** X13: [Solve] reads [state[0]] to [state[5]]: on a state vector with
    fewer than six entries it indexes out of range, whatever the horizon,
    the coefficients and the solver. *)
Theorem Solve_short_state ipopt (state cs : list R) w :
  (length state < 6)%nat -> Solve ipopt state cs w = None.
Proof.
  intros Hs. unfold Solve, mbind, M_bind, lift. by rewrite Solve_vars_short.
Qed.

(** X14: [Solve] reads the first six entries of the state only: further
    entries do not change the run. *)
Theorem Solve_ignores_extra_state ipopt (state extra cs : list R) w :
  (6 <= length state)%nat ->
  Solve ipopt (state ++ extra) cs w = Solve ipopt state cs w.
Proof.
  intros Hs. unfold Solve.
  by rewrite Solve_vars_app, Solve_constraints_bounds_app.
Qed.

(** X15: calls compose without interference: two calls in sequence return
    what each returns on its own, the solver is called twice and the two
    cost lines appear on standard output in the order of the calls. *)
Theorem Solve_twice ipopt (s1 c1 s2 c2 : list R) w :
  (1 <= N)%nat -> length s1 = 6%nat -> length s2 = 6%nat ->
  (r1 ← Solve ipopt s1 c1; r2 ← Solve ipopt s2 c2; mret (r1, r2) : M (list R * list R)) w
  = Some ((x (ipopt (Solve_problem s1 c1)), x (ipopt (Solve_problem s2 c2))),
          {| cout := cout w
                     ++ [cout_str "Cost ";
                         cout_double (obj_value (ipopt (Solve_problem s1 c1)));
                         cout_endl;
                         cout_str "Cost ";
                         cout_double (obj_value (ipopt (Solve_problem s2 c2)));
                         cout_endl];
             solves := S (S (solves w)) |}).
Proof.
  intros HN H1 H2. unfold mbind, M_bind.
  rewrite (Solve_run ipopt s1 c1 w HN H1).
  rewrite Solve_run by done. cbn [cout solves mret M_ret].
  by rewrite <- app_assoc.
Qed.

(** ** The seed as a decision vector *)

Lemma at_step_seed_other (state : VectorXd) s t :
  (forall k, (s + t)%nat <> start k) ->
  at_step (pin_state state (Dvector_new n_vars)) s t = 0.
Proof.
  intros H. rewrite <- (at_step_zero n_vars s t). unfold at_step.
  by rewrite pin_state_other.
Qed.

Lemma at_step_seed_start (state : VectorXd) k :
  (1 <= N)%nat -> length state = 6%nat ->
  at_step (pin_state state (Dvector_new n_vars)) (start k) 0
  = coeff state (channel_index k).
Proof.
  intros HN Hs. unfold at_step. rewrite Nat.add_0_r.
  rewrite pin_state_at
    by (done || unfold Dvector_new; rewrite length_replicate; offsets; lia).
  by rewrite lookup_state by (destruct k; simpl; lia).
Qed.

(** X17: the cost of the initial guess: at the seed the objective is
    1000 cte^2 + 1000 epsi^2 of the observed state plus the speed cost
    10 (N-1) ref_v^2 of standing still for the rest of the horizon. *)
Theorem objective_at_seed (state cs fg : list R) :
  (2 <= N)%nat -> length state = 6%nat -> length cs = 4%nat ->
  length fg = (1 + n_constraints)%nat ->
  exists vars fg',
    Solve_vars state = Some vars
    /\ FG_eval_call (mkFG_eval cs) fg vars = Some fg'
    /\ fg' !! 0%nat
       = Some (1000 * coeff state 4 ^ 2 + 1000 * coeff state 5 ^ 2
               + 10 * INR (N - 1) * ref_v ^ 2).
Proof.
  intros HN Hs Hc Hfg.
  set (seed := pin_state state (Dvector_new n_vars)).
  assert (Hlen : length seed = n_vars)
    by (unfold seed; rewrite length_pin_state; unfold Dvector_new;
        by rewrite length_replicate).
  destruct (FG_eval_call_rows (mkFG_eval cs) fg seed) as (fg' & Hrun & _ & H0 & _);
    [lia | done ..|].
  exists seed, fg'. split; [apply Solve_vars_pin; lia || done|]. split; [done|].
  rewrite H0. f_equal. unfold objective, sum_over.
  replace (N - 0)%nat with (S (N - 1)) by lia. cbn [Rsum].
  pose proof (at_step_seed_start state ch_cte ltac:(lia) Hs) as Ecte.
  pose proof (at_step_seed_start state ch_epsi ltac:(lia) Hs) as Eepsi.
  cbn [start channel_index] in Ecte, Eepsi. fold seed in Ecte, Eepsi.
  rewrite Ecte, Eepsi.
  rewrite (Rsum_ext (fun t => 10 * (at_step seed v_start t - ref_v) ^ 2)
             (fun _ => 10 * ref_v ^ 2) 1 (N - 1)).
  2:{ intros t Ht. unfold seed.
      rewrite at_step_seed_other
        by (intros k; destruct k; cbn [start]; offsets; lia). ring. }
  rewrite Rsum_const.
  rewrite !Rsum_zero_in; [ring | intros t Ht; unfold seed ..].
  all: rewrite !at_step_seed_other
         by (intros k; destruct k; cbn [start]; offsets; lia).
  all: ring.
Qed.

Lemma FG_eval_cost_app (vars extra : ADvector) :
  (1 <= N)%nat -> (n_vars <= length vars)%nat ->
  FG_eval_cost (vars ++ extra) = FG_eval_cost vars.
Proof.
  intros HN Hlen. unfold FG_eval_cost, for_loop.
  rewrite (for_range_ext (cost_reference (vars ++ extra)) (cost_reference vars))
    by (intros t c Ht; unfold cost_reference;
        by rewrite !lookup_app_l by (offsets; lia)).
  destruct (for_range 0 (N - 0) (cost_reference vars) 0); run; [|done].
  rewrite (for_range_ext (cost_speed (vars ++ extra)) (cost_speed vars))
    by (intros t c Ht; unfold cost_speed;
        by rewrite !lookup_app_l by (offsets; lia)).
  destruct (for_range 1 (N - 1) (cost_speed vars) r); run; [|done].
  rewrite (for_range_ext (cost_actuators (vars ++ extra)) (cost_actuators vars))
    by (intros t c Ht; unfold cost_actuators;
        by rewrite !lookup_app_l by (offsets; lia)).
  destruct (for_range 0 (N - 1 - 0) (cost_actuators vars) r0); run; [|done].
  apply for_range_ext. intros t c Ht. unfold cost_actuator_speed.
  by rewrite !lookup_app_l by (offsets; lia).
Qed.

(** X18: the evaluator reads the first [n_vars] entries of [vars] only:
    further entries do not change its result. *)
Theorem FG_eval_call_ignores_extra_vars self (fg vars extra : list R) :
  (1 <= N)%nat -> (n_vars <= length vars)%nat ->
  FG_eval_call self fg (vars ++ extra) = FG_eval_call self fg vars.
Proof.
  intros HN Hlen. unfold FG_eval_call.
  destruct (store fg 0 0); run; [|done].
  rewrite FG_eval_cost_app by done.
  destruct (FG_eval_cost vars); run; [|done].
  destruct (store _ 0 _) as [fg1|]; run; [|done].
  assert (Hinit : FG_eval_initial fg1 (vars ++ extra) = FG_eval_initial fg1 vars)
    by (unfold FG_eval_initial; by rewrite !lookup_app_l by (offsets; lia)).
  rewrite Hinit. destruct (FG_eval_initial fg1 vars); run; [|done].
  unfold for_loop. apply for_range_ext. intros t g Ht. unfold FG_eval_step.
  by rewrite !lookup_app_l by (offsets; lia).
Qed.

Local Close Scope R_scope.

End Model.


(** ** Concrete runs *)

Local Open Scope R_scope.

Lemma objective_is_weighted_sum_witness :
  ((2 <= 3)%nat /\ length [1; 2; 3; 4; 5; 6; 7; 8; 9; 10; 11; 12; 13; 14; 15;
                           16; 17; 18; 19; 20; 21; 22] = n_vars 3
   /\ length [1; 2; 3; 4] = 4%nat /\ length (Dvector_new 19) = (1 + n_constraints 3)%nat)
  /\ exists fg',
       FG_eval_call 3 0.1 2.67 40 (mkFG_eval [1; 2; 3; 4]) (Dvector_new 19)
         [1; 2; 3; 4; 5; 6; 7; 8; 9; 10; 11; 12; 13; 14; 15; 16; 17; 18; 19; 20; 21; 22]
       = Some fg'
       /\ fg' !! 0%nat
          = Some (objective 3 40 [1; 2; 3; 4; 5; 6; 7; 8; 9; 10; 11; 12; 13; 14; 15;
                                  16; 17; 18; 19; 20; 21; 22]).
Proof.
  split; [repeat split; lia || reflexivity|].
  apply (objective_is_weighted_sum 3 0.1 2.67 40); lia || reflexivity.
Defined.

Lemma objective_nonnegative_witness :
  ((2 <= 3)%nat /\ length (Dvector_new 22) = n_vars 3
   /\ length [0.5; 0.1; 0; 0] = 4%nat /\ length (Dvector_new 19) = (1 + n_constraints 3)%nat)
  /\ exists fg' cost,
       FG_eval_call 3 0.1 2.67 40 (mkFG_eval [0.5; 0.1; 0; 0]) (Dvector_new 19)
         (Dvector_new 22) = Some fg'
       /\ fg' !! 0%nat = Some cost /\ 0 <= cost.
Proof.
  split; [repeat split; lia || reflexivity|].
  apply (objective_nonnegative 3 0.1 2.67 40); lia || reflexivity.
Defined.

Lemma residual_rows_are_actual_minus_predicted_witness :
  ((2 <= 2)%nat /\ length [1; 2; 3; 4; 5; 6; 7; 8; 9; 10; 11; 12; 13; 14] = n_vars 2
   /\ length [1; 2; 3; 4] = 4%nat /\ length (Dvector_new 13) = (1 + n_constraints 2)%nat)
  /\ exists fg',
       FG_eval_call 2 0.1 2.67 40 (mkFG_eval [1; 2; 3; 4]) (Dvector_new 13)
         [1; 2; 3; 4; 5; 6; 7; 8; 9; 10; 11; 12; 13; 14] = Some fg'
       /\ forall t, (1 <= t < 2)%nat ->
            constraint_row fg' (x_start + t)
              = Some (at_step [1; 2; 3; 4; 5; 6; 7; 8; 9; 10; 11; 12; 13; 14] x_start t
                      - x1_pred 2 0.1 [1; 2; 3; 4; 5; 6; 7; 8; 9; 10; 11; 12; 13; 14] (t - 1))
            /\ constraint_row fg' (y_start 2 + t)
              = Some (at_step [1; 2; 3; 4; 5; 6; 7; 8; 9; 10; 11; 12; 13; 14] (y_start 2) t
                      - y1_pred 2 0.1 [1; 2; 3; 4; 5; 6; 7; 8; 9; 10; 11; 12; 13; 14] (t - 1))
            /\ constraint_row fg' (psi_start 2 + t)
              = Some (at_step [1; 2; 3; 4; 5; 6; 7; 8; 9; 10; 11; 12; 13; 14] (psi_start 2) t
                      - psi1_pred 2 0.1 2.67 [1; 2; 3; 4; 5; 6; 7; 8; 9; 10; 11; 12; 13; 14] (t - 1))
            /\ constraint_row fg' (v_start 2 + t)
              = Some (at_step [1; 2; 3; 4; 5; 6; 7; 8; 9; 10; 11; 12; 13; 14] (v_start 2) t
                      - v1_pred 2 0.1 [1; 2; 3; 4; 5; 6; 7; 8; 9; 10; 11; 12; 13; 14] (t - 1))
            /\ constraint_row fg' (cte_start 2 + t)
              = Some (at_step [1; 2; 3; 4; 5; 6; 7; 8; 9; 10; 11; 12; 13; 14] (cte_start 2) t
                      - cte1_pred 2 0.1 [1; 2; 3; 4]
                          [1; 2; 3; 4; 5; 6; 7; 8; 9; 10; 11; 12; 13; 14] (t - 1))
            /\ constraint_row fg' (epsi_start 2 + t)
              = Some (at_step [1; 2; 3; 4; 5; 6; 7; 8; 9; 10; 11; 12; 13; 14] (epsi_start 2) t
                      - epsi1_pred 2 0.1 2.67 [1; 2; 3; 4]
                          [1; 2; 3; 4; 5; 6; 7; 8; 9; 10; 11; 12; 13; 14] (t - 1)).
Proof.
  split; [repeat split; lia || reflexivity|].
  apply (residual_rows_are_actual_minus_predicted 2 0.1 2.67 40); lia || reflexivity.
Defined.

Lemma constraint_rows_channel_major_witness :
  ((2 <= 3)%nat /\ length [1; 2; 3; 4; 5; 6] = 6%nat /\ length (Dvector_new 22) = n_vars 3
   /\ length [0; 0; 0; 0] = 4%nat /\ length (Dvector_new 19) = (1 + n_constraints 3)%nat)
  /\ exists gl gu fg',
       Solve_constraints_bounds 3 [1; 2; 3; 4; 5; 6] = Some (gl, gu)
       /\ FG_eval_call 3 0.1 2.67 40 (mkFG_eval [0; 0; 0; 0]) (Dvector_new 19)
            (Dvector_new 22) = Some fg'
       /\ length gl = (3 * 6)%nat /\ length gu = (3 * 6)%nat
       /\ length fg' = (1 + 3 * 6)%nat
       /\ (forall k t, (1 <= t < 3)%nat ->
             constraint_row fg' (channel_index k * 3 + t)
             = Some (residual 3 0.1 2.67 [0; 0; 0; 0] (Dvector_new 22) k t))
       /\ (forall k,
             constraint_row fg' (channel_index k * 3)
             = Dvector_new 22 !! (channel_index k * 3)%nat
             /\ gl !! (channel_index k * 3)%nat = [1; 2; 3; 4; 5; 6] !! channel_index k
             /\ gu !! (channel_index k * 3)%nat = [1; 2; 3; 4; 5; 6] !! channel_index k)
       /\ (forall r, (r < 3 * 6)%nat -> (forall k, r <> channel_index k * 3)%nat ->
             gl !! r = Some 0 /\ gu !! r = Some 0).
Proof.
  split; [repeat split; lia || reflexivity|].
  apply (constraint_rows_channel_major 3 0.1 2.67 40); lia || reflexivity.
Defined.

Lemma variable_bounds_witness :
  (1 <= 3)%nat
  /\ exists lower upper, Solve_vars_bounds 3 = Some (lower, upper)
       /\ length lower = n_vars 3 /\ length upper = n_vars 3
       /\ (forall k t, (t < 3)%nat ->
             lower !! (start 3 k + t)%nat = Some (-1e19)
             /\ upper !! (start 3 k + t)%nat = Some 1e19)
       /\ (forall t, (t < 3 - 1)%nat ->
             lower !! (delta_start 3 + t)%nat = Some (-0.436332)
             /\ upper !! (delta_start 3 + t)%nat = Some 0.436332)
       /\ (forall t, (t < 3 - 1)%nat ->
             lower !! (a_start 3 + t)%nat = Some (-1)
             /\ upper !! (a_start 3 + t)%nat = Some 1).
Proof.
  split; [lia|]. apply (variable_bounds 3). lia.
Defined.

Lemma initial_vars_seed_witness :
  ((1 <= 3)%nat /\ length [1; 2; 3; 4; 5; 6] = 6%nat)
  /\ exists vars, Solve_vars 3 [1; 2; 3; 4; 5; 6] = Some vars
       /\ length vars = (3 * 6 + (3 - 1) * 2)%nat
       /\ (forall k, vars !! start 3 k = [1; 2; 3; 4; 5; 6] !! channel_index k)
       /\ (forall i, (i < 3 * 6 + (3 - 1) * 2)%nat -> (forall k, i <> start 3 k) ->
             vars !! i = Some 0).
Proof.
  split; [split; lia || reflexivity|].
  apply (initial_vars_seed 3); lia || reflexivity.
Defined.

Lemma zero_vector_feasible_with_speed_cost_witness :
  ((2 <= 3)%nat /\ 2.67 <> 0 /\ length (Dvector_new 19) = (1 + n_constraints 3)%nat)
  /\ exists lower upper gl gu fg',
       Solve_vars_bounds 3 = Some (lower, upper)
       /\ Solve_constraints_bounds 3 [0; 0; 0; 0; 0; 0] = Some (gl, gu)
       /\ FG_eval_call 3 0.1 2.67 40 (mkFG_eval [0; 0; 0; 0]) (Dvector_new 19)
            (Dvector_new (n_vars 3)) = Some fg'
       /\ feasible 3 lower upper gl gu (Dvector_new (n_vars 3)) fg'
       /\ fg' !! 0%nat = Some (10 * INR (3 - 1) * 40 ^ 2).
Proof.
  split; [split; [lia | split; [lra | reflexivity]]|].
  apply (zero_vector_feasible_with_speed_cost 3 0.1 2.67 40); [lia | lra | reflexivity].
Defined.


Lemma Solve_effects_witness :
  ((1 <= 3)%nat /\ length [1; 2; 3; 4; 5; 6] = 6%nat)
  /\ exists result line,
       line = [cout_str "Cost ";
               cout_double (obj_value (ipopt_converged
                  (Solve_problem 3 0.1 2.67 40 [1; 2; 3; 4; 5; 6] [0; 0; 0; 0])));
               cout_endl]
       /\ forall w, Solve 3 0.1 2.67 40 ipopt_converged [1; 2; 3; 4; 5; 6] [0; 0; 0; 0] w
          = Some (result, {| cout := cout w ++ line; solves := S (solves w) |}).
Proof.
  split; [split; lia || reflexivity|].
  apply (Solve_effects 3 0.1 2.67 40); lia || reflexivity.
Defined.


(** C3 fails on the code: with N = 3 and the state (1, 2, 3, 4, 5, 6) the
    pinned rows are 0, 3, 6, 9, 12 and 15; row 1 is bounded by 0 and not by
    the second component of the state, and row 6, outside rows 0..5, is
    bounded by the third component and not by 0. *)
Lemma constraint_bounds_not_rows_0_to_5 :
  exists gl gu,
    Solve_constraints_bounds 3 [1; 2; 3; 4; 5; 6] = Some (gl, gu)
    /\ gl = [1; 0; 0; 2; 0; 0; 3; 0; 0; 4; 0; 0; 5; 0; 0; 6; 0; 0]
    /\ gu = [1; 0; 0; 2; 0; 0; 3; 0; 0; 4; 0; 0; 5; 0; 0; 6; 0; 0]
    /\ gl !! 1%nat <> [1; 2; 3; 4; 5; 6] !! 1%nat
    /\ gl !! 6%nat <> Some 0.
Proof.
  exists [1; 0; 0; 2; 0; 0; 3; 0; 0; 4; 0; 0; 5; 0; 0; 6; 0; 0],
         [1; 0; 0; 2; 0; 0; 3; 0; 0; 4; 0; 0; 5; 0; 0; 6; 0; 0].
  split; [reflexivity|]. split; [reflexivity|]. split; [reflexivity|].
  split; intros H; apply (inj Some) in H; lra.
Qed.

(** C8 fails on the code: with N = 3 and ref_v = 40 the objective at the
    all-zero decision vector is 32000. *)
Lemma zero_vector_objective_not_zero :
  exists fg',
    FG_eval_call 3 0.1 2.67 40 (mkFG_eval [0; 0; 0; 0]) (Dvector_new 19) (Dvector_new 22)
    = Some fg'
    /\ fg' !! 0%nat = Some 32000
    /\ fg' !! 0%nat <> Some 0.
Proof.
  destruct (FG_eval_call_rows 3 0.1 2.67 40 (mkFG_eval [0; 0; 0; 0])
              (Dvector_new 19) (Dvector_new 22))
    as (fg' & Hrun & _ & H0 & _); [lia | reflexivity ..|].
  rewrite objective_zero in H0.
  assert (E : 10 * INR (3 - 1) * 40 ^ 2 = 32000) by (simpl; lra).
  rewrite E in H0. exists fg'. split; [done|]. split; [done|].
  rewrite H0. intros H; apply (inj Some) in H; lra.
Qed.

(** C9 fails on the code: a call writes a line to standard output. *)
Lemma Solve_writes_to_cout :
  exists ret w',
    Solve 3 0.1 2.67 40 ipopt_converged [0; 0; 0; 0; 0; 0] [0; 0; 0; 0] w0 = Some (ret, w')
    /\ cout w' = [cout_str "Cost "; cout_double 0; cout_endl]
    /\ cout w' <> cout w0.
Proof.
  exists (Dvector_new 22),
         {| cout := [cout_str "Cost "; cout_double 0; cout_endl]; solves := 1 |}.
  split; [reflexivity|]. split; [reflexivity|]. discriminate.
Qed.

(** C1 at its failing input: the solver reports that the iteration limit
    was exceeded, and [Solve] returns the primal vector and writes the cost
    exactly as it does when the solver reports convergence; the status is
    not part of what the caller receives. *)
Theorem failed_solve_returned_like_success :
  status (ipopt_maxiter (Solve_problem 3 0.1 2.67 40 [0; 0; 0; 0; 0; 0] [0; 0; 0; 0]))
    = maxiter_exceeded
  /\ Solve 3 0.1 2.67 40 ipopt_maxiter [0; 0; 0; 0; 0; 0] [0; 0; 0; 0] w0
     = Some (Dvector_new 22,
             {| cout := [cout_str "Cost "; cout_double 0; cout_endl]; solves := 1 |})
  /\ Solve 3 0.1 2.67 40 ipopt_maxiter [0; 0; 0; 0; 0; 0] [0; 0; 0; 0] w0
     = Solve 3 0.1 2.67 40 ipopt_converged [0; 0; 0; 0; 0; 0] [0; 0; 0; 0] w0.
Proof. split; [reflexivity|]. split; reflexivity. Qed.

(** ** Further properties across configurations *)

(** X2: the objective does not see the reference polynomial, the time
    step or [Lf]: evaluators that differ in them leave the same [fg[0]]. *)
Theorem objective_independent_of_polynomial (N : nat) (dt1 Lf1 dt2 Lf2 ref_v : R)
    (cs1 cs2 fg1 fg2 vars : list R) :
  (2 <= N)%nat -> length vars = n_vars N ->
  length cs1 = 4%nat -> length cs2 = 4%nat ->
  length fg1 = (1 + n_constraints N)%nat -> length fg2 = (1 + n_constraints N)%nat ->
  exists r1 r2,
    FG_eval_call N dt1 Lf1 ref_v (mkFG_eval cs1) fg1 vars = Some r1
    /\ FG_eval_call N dt2 Lf2 ref_v (mkFG_eval cs2) fg2 vars = Some r2
    /\ r1 !! 0%nat = r2 !! 0%nat.
Proof.
  intros HN Hvars Hc1 Hc2 Hf1 Hf2.
  destruct (FG_eval_call_rows N dt1 Lf1 ref_v (mkFG_eval cs1) fg1 vars)
    as (r1 & Hr1 & _ & O1 & _); [lia | done ..|].
  destruct (FG_eval_call_rows N dt2 Lf2 ref_v (mkFG_eval cs2) fg2 vars)
    as (r2 & Hr2 & _ & O2 & _); [lia | done ..|].
  exists r1, r2. split; [done|]. split; [done|]. by rewrite O1, O2.
Qed.

Lemma objective_independent_of_polynomial_witness :
  ((2 <= 2)%nat /\ length (Dvector_new 14) = n_vars 2
   /\ length [1; 2; 3; 4] = 4%nat /\ length [0; 0; 0; 0] = 4%nat
   /\ length (Dvector_new 13) = (1 + n_constraints 2)%nat
   /\ length (Dvector_new 13) = (1 + n_constraints 2)%nat)
  /\ exists r1 r2,
       FG_eval_call 2 0.1 2.67 40 (mkFG_eval [1; 2; 3; 4]) (Dvector_new 13) (Dvector_new 14)
       = Some r1
       /\ FG_eval_call 2 0.05 1 40 (mkFG_eval [0; 0; 0; 0]) (Dvector_new 13) (Dvector_new 14)
          = Some r2
       /\ r1 !! 0%nat = r2 !! 0%nat.
Proof.
  split; [repeat split; lia || reflexivity|].
  apply (objective_independent_of_polynomial 2 0.1 2.67 0.05 1 40); lia || reflexivity.
Defined.

Lemma FG_eval_call_overwrites_fg_witness :
  ((2 <= 2)%nat /\ length (Dvector_new 14) = n_vars 2
   /\ length (coeffs (mkFG_eval [1; 2; 3; 4])) = 4%nat
   /\ length (Dvector_new 13) = (1 + n_constraints 2)%nat
   /\ length (replicate 13 7) = (1 + n_constraints 2)%nat)
  /\ exists fg',
       FG_eval_call 2 0.1 2.67 40 (mkFG_eval [1; 2; 3; 4]) (Dvector_new 13) (Dvector_new 14)
       = Some fg'
       /\ FG_eval_call 2 0.1 2.67 40 (mkFG_eval [1; 2; 3; 4]) (replicate 13 7) (Dvector_new 14)
          = Some fg'.
Proof.
  split; [repeat split; lia || reflexivity|].
  apply (FG_eval_call_overwrites_fg 2 0.1 2.67 40); lia || reflexivity.
Defined.

Lemma objective_ignores_position_witness :
  ((2 <= 2)%nat /\ length (Dvector_new 14) = n_vars 2 /\ length [1; 2; 3; 4] = 4%nat
   /\ length (Dvector_new 13) = (1 + n_constraints 2)%nat /\ (3 <= v_start 2)%nat)
  /\ exists fg1 fg2,
       FG_eval_call 2 0.1 2.67 40 (mkFG_eval [1; 2; 3; 4]) (Dvector_new 13) (Dvector_new 14)
       = Some fg1
       /\ FG_eval_call 2 0.1 2.67 40 (mkFG_eval [1; 2; 3; 4]) (Dvector_new 13)
            (<[3%nat := 5]> (Dvector_new 14)) = Some fg2
       /\ fg1 !! 0%nat = fg2 !! 0%nat.
Proof.
  split; [repeat split; (unfold v_start, psi_start, y_start, x_start; lia) || reflexivity|].
  apply (objective_ignores_position 2 0.1 2.67 40);
    (unfold v_start, psi_start, y_start, x_start; lia) || reflexivity.
Defined.

Lemma objective_zero_iff_witness :
  ((2 <= 2)%nat /\ length (Dvector_new 14) = n_vars 2 /\ length [1; 2; 3; 4] = 4%nat
   /\ length (Dvector_new 13) = (1 + n_constraints 2)%nat)
  /\ exists fg',
       FG_eval_call 2 0.1 2.67 40 (mkFG_eval [1; 2; 3; 4]) (Dvector_new 13) (Dvector_new 14)
       = Some fg'
       /\ (fg' !! 0%nat = Some 0 <->
           (forall t, (t < 2)%nat ->
              at_step (Dvector_new 14) (cte_start 2) t = 0
              /\ at_step (Dvector_new 14) (epsi_start 2) t = 0)
           /\ (forall t, (1 <= t < 2)%nat -> at_step (Dvector_new 14) (v_start 2) t = 40)
           /\ (forall t, (t < 2 - 1)%nat ->
              at_step (Dvector_new 14) (delta_start 2) t = 0
              /\ at_step (Dvector_new 14) (a_start 2) t = 0)).
Proof.
  split; [repeat split; lia || reflexivity|].
  apply (objective_zero_iff 2 0.1 2.67 40); lia || reflexivity.
Defined.

Lemma zero_residuals_determine_trajectory_witness :
  ((2 <= 2)%nat /\ length (Dvector_new 14) = n_vars 2 /\ length (Dvector_new 14) = n_vars 2
   /\ length [0; 0; 0; 0] = 4%nat /\ length (Dvector_new 13) = (1 + n_constraints 2)%nat)
  /\ exists fg1 fg2,
       FG_eval_call 2 0.1 2.67 40 (mkFG_eval [0; 0; 0; 0]) (Dvector_new 13) (Dvector_new 14)
       = Some fg1
       /\ FG_eval_call 2 0.1 2.67 40 (mkFG_eval [0; 0; 0; 0]) (Dvector_new 13) (Dvector_new 14)
          = Some fg2
       /\ ((forall k t, (1 <= t < 2)%nat ->
              constraint_row fg1 (start 2 k + t) = Some 0
              /\ constraint_row fg2 (start 2 k + t) = Some 0) ->
           (forall k, Dvector_new 14 !! start 2 k = Dvector_new 14 !! start 2 k) ->
           (forall t, (t < 2 - 1)%nat ->
              Dvector_new 14 !! (delta_start 2 + t)%nat
              = Dvector_new 14 !! (delta_start 2 + t)%nat
              /\ Dvector_new 14 !! (a_start 2 + t)%nat
                 = Dvector_new 14 !! (a_start 2 + t)%nat) ->
           Dvector_new 14 = Dvector_new 14).
Proof.
  split; [repeat split; lia || reflexivity|].
  apply (zero_residuals_determine_trajectory 2 0.1 2.67 40); lia || reflexivity.
Defined.

Lemma residual_row_is_local_witness :
  ((2 <= 3)%nat /\ length (Dvector_new 22) = n_vars 3 /\ length [1; 2; 3; 4] = 4%nat
   /\ length (Dvector_new 19) = (1 + n_constraints 3)%nat /\ (1 <= 2 < 3)%nat
   /\ (forall k', 0 <> start 3 k' + (2 - 1))%nat
   /\ (0 <> delta_start 3 + (2 - 1))%nat /\ (0 <> a_start 3 + (2 - 1))%nat
   /\ (0 <> start 3 ch_x + 2)%nat)
  /\ exists fg1 fg2,
       FG_eval_call 3 0.1 2.67 40 (mkFG_eval [1; 2; 3; 4]) (Dvector_new 19) (Dvector_new 22)
       = Some fg1
       /\ FG_eval_call 3 0.1 2.67 40 (mkFG_eval [1; 2; 3; 4]) (Dvector_new 19)
            (<[0%nat := 9]> (Dvector_new 22)) = Some fg2
       /\ constraint_row fg1 (start 3 ch_x + 2) = constraint_row fg2 (start 3 ch_x + 2).
Proof.
  assert (H : forall k', (0 <> start 3 k' + (2 - 1))%nat) by (intros k'; lia).
  split; [repeat split; lia || reflexivity || done|].
  apply (residual_row_is_local 3 0.1 2.67 40); lia || reflexivity || done.
Defined.

Lemma constraint_bounds_are_equalities_witness :
  ((1 <= 3)%nat /\ length [1; 2; 3; 4; 5; 6] = 6%nat)
  /\ exists g, Solve_constraints_bounds 3 [1; 2; 3; 4; 5; 6] = Some (g, g)
       /\ length g = n_constraints 3.
Proof.
  split; [split; lia || reflexivity|].
  apply (constraint_bounds_are_equalities 3); lia || reflexivity.
Defined.

Lemma variable_box_symmetric_witness :
  (1 <= 3)%nat
  /\ exists lower upper, Solve_vars_bounds 3 = Some (lower, upper)
       /\ forall i, (i < n_vars 3)%nat ->
            exists u, upper !! i = Some u /\ lower !! i = Some (- u) /\ 0 < u.
Proof. split; [lia|]. apply (variable_box_symmetric 3). lia. Defined.

Lemma seed_within_variable_bounds_witness :
  ((1 <= 3)%nat /\ length [1; 2; 3; 4; 5; 6] = 6%nat
   /\ (forall k s, [1; 2; 3; 4; 5; 6] !! channel_index k = Some s -> -1e19 <= s <= 1e19))
  /\ exists vars lower upper,
       Solve_vars 3 [1; 2; 3; 4; 5; 6] = Some vars
       /\ Solve_vars_bounds 3 = Some (lower, upper)
       /\ forall i, (i < n_vars 3)%nat ->
            exists a l u, vars !! i = Some a /\ lower !! i = Some l
                          /\ upper !! i = Some u /\ l <= a <= u.
Proof.
  assert (H : forall k s, [1; 2; 3; 4; 5; 6] !! channel_index k = Some s
                          -> -1e19 <= s <= 1e19).
  { intros k s Hk. destruct k; apply (inj Some) in Hk; subst s; lra. }
  split; [split; [lia | split; [reflexivity | exact H]]|].
  apply (seed_within_variable_bounds 3); [lia | reflexivity | exact H].
Defined.

Lemma seed_satisfies_pinned_rows_witness :
  ((2 <= 3)%nat /\ length [1; 2; 3; 4; 5; 6] = 6%nat /\ length [1; 2; 3; 4] = 4%nat
   /\ length (Dvector_new 19) = (1 + n_constraints 3)%nat)
  /\ exists vars gl gu fg',
       Solve_vars 3 [1; 2; 3; 4; 5; 6] = Some vars
       /\ Solve_constraints_bounds 3 [1; 2; 3; 4; 5; 6] = Some (gl, gu)
       /\ FG_eval_call 3 0.1 2.67 40 (mkFG_eval [1; 2; 3; 4]) (Dvector_new 19) vars = Some fg'
       /\ forall k, constraint_row fg' (start 3 k) = gl !! start 3 k
                    /\ constraint_row fg' (start 3 k) = gu !! start 3 k.
Proof.
  split; [repeat split; lia || reflexivity|].
  apply (seed_satisfies_pinned_rows 3 0.1 2.67 40); lia || reflexivity.
Defined.

Lemma FG_eval_call_domain_witness :
  (2 <= 2)%nat
  /\ (is_Some (FG_eval_call 2 0.1 2.67 40 (mkFG_eval [1; 2; 3]%R) (Dvector_new 13)
                 (Dvector_new 14))
      <-> (n_vars 2 <= length (Dvector_new 14))%nat
          /\ (4 <= length (coeffs (mkFG_eval [1; 2; 3]%R)))%nat
          /\ (1 + n_constraints 2 <= length (Dvector_new 13))%nat).
Proof. split; [lia|]. apply (FG_eval_call_domain 2 0.1 2.67 40). lia. Defined.

Lemma FG_eval_call_ignores_extra_coeffs_witness :
  (4 <= length [1; 2; 3; 4])%nat
  /\ FG_eval_call 2 0.1 2.67 40 (mkFG_eval ([1; 2; 3; 4] ++ [5; 6])) (Dvector_new 13)
       (Dvector_new 14)
     = FG_eval_call 2 0.1 2.67 40 (mkFG_eval [1; 2; 3; 4]) (Dvector_new 13) (Dvector_new 14).
Proof.
  split; [simpl; lia|].
  apply (FG_eval_call_ignores_extra_coeffs 2 0.1 2.67 40). simpl; lia.
Defined.

Lemma Solve_short_state_witness :
  (length [1; 2; 3; 4; 5] < 6)%nat
  /\ Solve 3 0.1 2.67 40 ipopt_converged [1; 2; 3; 4; 5] [0; 0; 0; 0] w0 = None.
Proof.
  split; [simpl; lia|]. apply (Solve_short_state 3 0.1 2.67 40). simpl; lia.
Defined.

Lemma Solve_ignores_extra_state_witness :
  (6 <= length [1; 2; 3; 4; 5; 6])%nat
  /\ Solve 3 0.1 2.67 40 ipopt_converged ([1; 2; 3; 4; 5; 6] ++ [7; 8]) [0; 0; 0; 0] w0
     = Solve 3 0.1 2.67 40 ipopt_converged [1; 2; 3; 4; 5; 6] [0; 0; 0; 0] w0.
Proof.
  split; [simpl; lia|]. apply (Solve_ignores_extra_state 3 0.1 2.67 40). simpl; lia.
Defined.

Lemma Solve_twice_witness :
  ((1 <= 3)%nat /\ length [1; 2; 3; 4; 5; 6] = 6%nat /\ length [0; 0; 0; 0; 0; 0] = 6%nat)
  /\ (r1 ← Solve 3 0.1 2.67 40 ipopt_converged [1; 2; 3; 4; 5; 6] [0; 0; 0; 0];
      r2 ← Solve 3 0.1 2.67 40 ipopt_converged [0; 0; 0; 0; 0; 0] [1; 2; 3; 4];
      mret (r1, r2) : M (list R * list R)) w0
     = Some ((x (ipopt_converged
                   (Solve_problem 3 0.1 2.67 40 [1; 2; 3; 4; 5; 6] [0; 0; 0; 0])),
              x (ipopt_converged
                   (Solve_problem 3 0.1 2.67 40 [0; 0; 0; 0; 0; 0] [1; 2; 3; 4]))),
             {| cout := cout w0
                  ++ [cout_str "Cost ";
                      cout_double (obj_value (ipopt_converged
                        (Solve_problem 3 0.1 2.67 40 [1; 2; 3; 4; 5; 6] [0; 0; 0; 0])));
                      cout_endl;
                      cout_str "Cost ";
                      cout_double (obj_value (ipopt_converged
                        (Solve_problem 3 0.1 2.67 40 [0; 0; 0; 0; 0; 0] [1; 2; 3; 4])));
                      cout_endl];
                solves := S (S (solves w0)) |}).
Proof.
  split; [repeat split; lia || reflexivity|].
  apply (Solve_twice 3 0.1 2.67 40); lia || reflexivity.
Defined.

Lemma Solve_ignores_status_witness :
  ((1 <= 3)%nat /\ length [1; 2; 3; 4; 5; 6] = 6%nat
   /\ x (ipopt_maxiter (Solve_problem 3 0.1 2.67 40 [1; 2; 3; 4; 5; 6] [0; 0; 0; 0]))
      = x (ipopt_converged (Solve_problem 3 0.1 2.67 40 [1; 2; 3; 4; 5; 6] [0; 0; 0; 0]))
   /\ obj_value (ipopt_maxiter (Solve_problem 3 0.1 2.67 40 [1; 2; 3; 4; 5; 6] [0; 0; 0; 0]))
      = obj_value (ipopt_converged
                     (Solve_problem 3 0.1 2.67 40 [1; 2; 3; 4; 5; 6] [0; 0; 0; 0])))
  /\ Solve 3 0.1 2.67 40 ipopt_maxiter [1; 2; 3; 4; 5; 6] [0; 0; 0; 0] w0
     = Solve 3 0.1 2.67 40 ipopt_converged [1; 2; 3; 4; 5; 6] [0; 0; 0; 0] w0.
Proof.
  split; [repeat split; lia || reflexivity|].
  apply (Solve_ignores_status 3 0.1 2.67 40); lia || reflexivity.
Defined.

Lemma objective_at_seed_witness :
  ((2 <= 3)%nat /\ length [1; 2; 3; 4; 5; 6] = 6%nat /\ length [1; 2; 3; 4] = 4%nat
   /\ length (Dvector_new 19) = (1 + n_constraints 3)%nat)
  /\ exists vars fg',
       Solve_vars 3 [1; 2; 3; 4; 5; 6] = Some vars
       /\ FG_eval_call 3 0.1 2.67 40 (mkFG_eval [1; 2; 3; 4]) (Dvector_new 19) vars = Some fg'
       /\ fg' !! 0%nat
          = Some (1000 * coeff [1; 2; 3; 4; 5; 6] 4 ^ 2
                  + 1000 * coeff [1; 2; 3; 4; 5; 6] 5 ^ 2
                  + 10 * INR (3 - 1) * 40 ^ 2).
Proof.
  split; [repeat split; lia || reflexivity|].
  apply (objective_at_seed 3 0.1 2.67 40); lia || reflexivity.
Defined.

Lemma FG_eval_call_ignores_extra_vars_witness :
  ((1 <= 2)%nat /\ (n_vars 2 <= length (Dvector_new 14))%nat)
  /\ FG_eval_call 2 0.1 2.67 40 (mkFG_eval [1; 2; 3; 4]) (Dvector_new 13)
       (Dvector_new 14 ++ [5; 6])
     = FG_eval_call 2 0.1 2.67 40 (mkFG_eval [1; 2; 3; 4]) (Dvector_new 13) (Dvector_new 14).
Proof.
  split; [split; [lia | unfold n_vars; simpl; lia]|].
  apply (FG_eval_call_ignores_extra_vars 2 0.1 2.67 40); [lia | unfold n_vars; simpl; lia].
Defined.
